(** * Listener subsystem of the serial communication manager native library

    A shallow embedding of the background listener code of
    [unix_like_serial_lib.c] (data looper, event looper, port monitor,
    [serial_delay]) and of the listener registry of [windows_serial.c]
    (set-up and destruction of looper threads), together with the
    properties the specification states about them.

    Conventions.
    - C [int], [ssize_t], [DWORD] and [jbyte] values are integers in [Z].
    - Arrays ([buffer], [final_buf], [handle_looper_info]) are lists that
      are read with [!!!] and updated with [<[i:=x]>].
    - Everything the operating system or the Java side decides (results of
      [read], [epoll_wait], [kevent], [ioctl], [stat], thread creation)
      is an explicit input of the function that consumes it.
    - Calls into the Java listener object are collected in a list, in
      program order.
    - Constants that come from system headers are fields of a type class,
      so that every statement holds for each platform's values. *)

From Stdlib Require Import ZArith List Lia Bool String.
From stdpp Require Import base numbers list gmap.

Local Open Scope Z_scope.

(** The platforms for which [unix_like_serial_lib.c] has code under
    [#if defined (__linux__)] and [#if defined (__APPLE__)]; the
    [__SunOS] blocks are empty. *)
Inductive platform := Linux | Apple.

(* ===================================================================== *)
(** ** [serial_delay] *)
(* ===================================================================== *)

Module SerialDelay.

(** [struct timespec] as filled in by [serial_delay]. *)
Record timespec := Timespec { tv_sec : Z; tv_nsec : Z }.

(** The argument is a C [unsigned]: 32 bits on every supported target. *)
Definition UINT_MODULUS : Z := 2 ^ 32.

(** The timeout [serial_delay] hands to [pselect]:
    [t.tv_sec = milliSeconds/1000; t.tv_nsec = 0;]. *)
Definition serial_delay_timeout (milliSeconds : Z) : timespec :=
  {| tv_sec := milliSeconds / 1000; tv_nsec := 0 |}.

(** [pselect(1, 0, 0, 0, &t, 0)] watches no descriptor and blocks no signal:
    it returns when the timeout has elapsed.  Length of that wait, in
    nanoseconds. *)
Definition pselect_wait_ns (t : timespec) : Z :=
  tv_sec t * 1000000000 + tv_nsec t.

(** [serial_delay]: the time spent waiting (in nanoseconds) and the value
    returned, which is always 0. *)
Definition serial_delay (milliSeconds : Z) : Z * Z :=
  let t := serial_delay_timeout milliSeconds in
  (pselect_wait_ns t, 0).

(** The settle delay [port_monitor] requests after a udev event:
    [serial_delay(500)]. *)
Definition port_monitor_settle_delay : Z * Z := serial_delay 500.

Lemma serial_delay_timeout_nsec (ms : Z) :
  tv_nsec (serial_delay_timeout ms) = 0.
Proof. reflexivity. Qed.

Lemma serial_delay_whole_seconds (ms : Z) :
  fst (serial_delay ms) = (ms / 1000) * 1000000000.
Proof. unfold serial_delay, pselect_wait_ns; simpl. lia. Qed.

(** C9: [serial_delay] waits for [milliSeconds / 1000] whole seconds only:
    the nanoseconds field of the timeout is always zero, so the sub-second
    remainder is dropped, and for every argument strictly below 1000 the
    wait is zero.  The 500 ms settle delay the port monitor requests is
    such a call: it does not wait at all. *)
Theorem serial_delay_drops_subsecond (ms : Z) :
  0 <= ms < UINT_MODULUS ->
  serial_delay_timeout ms = {| tv_sec := ms / 1000; tv_nsec := 0 |}
  /\ fst (serial_delay ms) = (ms / 1000) * 1000000000
  /\ fst (serial_delay ms) <= ms * 1000000
  /\ (ms < 1000 -> fst (serial_delay ms) = 0)
  /\ snd (serial_delay ms) = 0
  /\ port_monitor_settle_delay = (0, 0).
Proof.
  intros [Hlo Hhi].
  split; [reflexivity|].
  split; [apply serial_delay_whole_seconds|].
  split.
  { rewrite serial_delay_whole_seconds.
    pose proof (Z.mul_div_le ms 1000 ltac:(lia)). lia. }
  split.
  { intros Hlt. rewrite serial_delay_whole_seconds.
    rewrite Z.div_small by lia. reflexivity. }
  split; reflexivity.
Qed.

Lemma serial_delay_drops_subsecond_witness :
  0 <= 1500 < UINT_MODULUS
  /\ fst (serial_delay 1500) = 1000000000.
Proof.
  split; [unfold UINT_MODULUS; lia|].
  destruct (serial_delay_drops_subsecond 1500) as (_ & H & _).
  - unfold UINT_MODULUS; lia.
  - rewrite H. reflexivity.
Defined.

End SerialDelay.

(* ===================================================================== *)
(** ** [data_looper]: the data listener thread *)
(* ===================================================================== *)

Module DataLooper.

(** Constants of the system headers that [data_looper] tests against. *)
Class SysConsts := {
  EINTR : Z;       (* errno.h *)
  EPOLLIN : Z;     (* sys/epoll.h *)
  EPOLLERR : Z;
  EPOLLHUP : Z;
  EV_ERROR : Z;    (* sys/event.h *)
}.

Definition jbyte := Z.

(** [sizeof(buffer)] and the number of elements of [final_buf]. *)
Definition BUFFER_SIZE : Z := 1024.
Definition FINAL_BUF_SIZE : Z := 1024 * 3.

(** The locals of [data_looper] that survive from one pass of the loops to
    the next.  [stores] is a ghost field: the positions of [final_buf]
    that have been assigned so far, oldest first. *)
Record locals := Locals {
  index : Z;
  partialData : Z;
  errorCount : Z;
  buffer : list jbyte;
  final_buf : list jbyte;
  stores : list Z;
}.

(** The locals as declared: [index = 0], [partialData = -1],
    [errorCount = 0]; both arrays are uninitialised, so their contents are
    whatever the stack held. *)
Definition initial_locals (buffer0 final_buf0 : list jbyte) : locals :=
  {| index := 0; partialData := -1; errorCount := 0;
     buffer := buffer0; final_buf := final_buf0; stores := [] |}.

(** What one [read(fd, buffer, sizeof(buffer))] did: its return value, the
    value of [errno] after it, and the bytes it placed at the start of
    [buffer]. *)
Record read_result := ReadResult {
  rd_ret : Z;
  rd_errno : Z;
  rd_bytes : list jbyte;
}.

(** [read] never returns more than the count it was given, and a positive
    return value is the number of bytes placed in the buffer. *)
Definition read_within_chunk (r : read_result) : Prop :=
  rd_ret r <= BUFFER_SIZE
  /\ (0 < rd_ret r -> Z.of_nat (length (rd_bytes r)) = rd_ret r).

(** The calls made on the looper object. *)
Inductive sink_call :=
| insertInDataQueue (data : list jbyte)
| insertInDataErrorQueue (code : Z).

(** Effect of [read] on [buffer]. *)
Definition read_into (buf : list jbyte) (r : read_result) : list jbyte :=
  if 0 <? rd_ret r
  then rd_bytes r ++ drop (length (rd_bytes r)) buf
  else buf.

(** [for(i = from; i < ret; i++) final_buf[i] = buffer[i];] unrolled
    [n] times from [i]; every assignment is appended to the log. *)
Fixpoint copy_loop (n : nat) (i : Z) (buf fb : list jbyte) (log : list Z)
  : list jbyte * list Z :=
  match n with
  | O => (fb, log)
  | S n' =>
      copy_loop n' (i + 1) buf
        (<[Z.to_nat i := buf !!! Z.to_nat i]> fb) (log ++ [i])
  end.

Definition copy_from_index (st : locals) (ret : Z) : locals :=
  let '(fb, log) :=
    copy_loop (Z.to_nat (ret - index st)) (index st)
      (buffer st) (final_buf st) (stores st) in
  {| index := index st; partialData := partialData st;
     errorCount := errorCount st; buffer := buffer st;
     final_buf := fb; stores := log |}.

Definition set_buffer (st : locals) (buf : list jbyte) : locals :=
  {| index := index st; partialData := partialData st;
     errorCount := errorCount st; buffer := buf;
     final_buf := final_buf st; stores := stores st |}.

Definition set_partial (st : locals) (ret : Z) : locals :=
  {| index := ret; partialData := 1;
     errorCount := errorCount st; buffer := buffer st;
     final_buf := final_buf st; stores := stores st |}.

Definition set_errorCount (st : locals) (c : Z) : locals :=
  {| index := index st; partialData := partialData st;
     errorCount := c; buffer := buffer st;
     final_buf := final_buf st; stores := stores st |}.

(** How the [do { ... } while(1)] read loop ends. *)
Inductive read_loop_result :=
| LoopLeft (st : locals) (calls : list sink_call)
    (dataRead : option (list jbyte))
    (* left by [break]; [dataRead] is set when [data_available == 1] *)
| LoopSpinning (st : locals).
    (* every modelled [read] was consumed by a [continue] *)

Definition loop_locals (r : read_loop_result) : locals :=
  match r with LoopLeft st _ _ | LoopSpinning st => st end.

(** The carry index is a chunk length, and every store so far was below
    the chunk size. *)
Definition chunk_bounded (st : locals) : Prop :=
  0 <= index st <= BUFFER_SIZE
  /\ Forall (fun pos => 0 <= pos < BUFFER_SIZE) (stores st).

Section Loop.
Context `{SysConsts}.

(** The [do { ... } while(1)] loop, one pass per element of [reads]. *)
Fixpoint read_loop (st : locals) (reads : list read_result)
  : read_loop_result :=
  match reads with
  | [] => LoopSpinning st
  | r :: rest =>
      let st := set_buffer st (read_into (buffer st) r) in
      let ret := rd_ret r in
      let errno := rd_errno r in
      if (0 <? ret) && (errno =? 0) then
        if partialData st =? 1 then
          let st := copy_from_index st ret in
          LoopLeft st []
            (Some (take (Z.to_nat (index st + ret)) (final_buf st)))
        else
          LoopLeft st [] (Some (take (Z.to_nat ret) (buffer st)))
      else if (0 <? ret) && (errno =? EINTR) then
        let st := copy_from_index st ret in
        read_loop (set_partial st ret) rest
      else if ret <? 0 then
        if errno =? EINTR then read_loop st rest
        else LoopLeft st [insertInDataErrorQueue errno] None
      else if ret =? 0 then LoopLeft st [] None
      else read_loop st rest
  end.

(** What the wait ([epoll_wait] on Linux, [kevent] on macOS) returned,
    and the value of [data_thread_exit] seen afterwards.
    Linux: [w_ident0] is [events[0].data.fd], [w_flags0] is
    [events[0].events], [w_ident1] is [events[1].data.fd].
    macOS: [w_ident0], [w_flags0] and [w_data0] are the [ident], [flags]
    and [data] of [evlist[0]], [w_ident1] is [evlist[1].ident]. *)
Record wait_result := WaitResult {
  w_ret : Z;
  w_ident0 : Z;
  w_flags0 : Z;
  w_data0 : Z;
  w_ident1 : Z;
  w_thread_exit : Z;
}.

(** The descriptors of the thread: the serial port, and the descriptor
    that wakes the wait ([evfd] on Linux, [pipe1[0]] on macOS). *)
Record thread_fds := ThreadFds { fd : Z; wake_fd : Z }.

Definition bit_set (flags mask : Z) : bool := negb (Z.land flags mask =? 0).

(** [(events[0].data.fd == evfd) || (events[1].data.fd == evfd)], then
    [1 == data_thread_exit]. *)
Definition exit_requested (fds : thread_fds) (w : wait_result) : bool :=
  ((w_ident0 w =? wake_fd fds) || (w_ident1 w =? wake_fd fds))
  && (1 =? w_thread_exit w).

(** Condition of the branch that reads the port. *)
Definition readable (p : platform) (fds : thread_fds) (w : wait_result)
  : bool :=
  match p with
  | Linux =>
      bit_set (w_flags0 w) EPOLLIN && negb (bit_set (w_flags0 w) EPOLLERR)
  | Apple => (w_ident0 w =? fd fds) && negb (bit_set (w_flags0 w) EV_ERROR)
  end.

(** Condition under which the other branch counts an error. *)
Definition error_flagged (p : platform) (w : wait_result) : bool :=
  match p with
  | Linux => bit_set (w_flags0 w) (Z.lor EPOLLERR EPOLLHUP)
  | Apple => bit_set (w_flags0 w) EV_ERROR
  end.

(** The code handed to [insertInDataErrorQueue] by that branch. *)
Definition error_code (p : platform) (w : wait_result) : Z :=
  match p with
  | Linux => w_flags0 w
  | Apple => w_data0 w
  end.

(** State of the thread after a pass of the outer [while(1)]. *)
Inductive thread_status :=
| Alive (st : locals)       (* back at the top of [while(1)] *)
| Terminated (st : locals)  (* [pthread_exit] after an exit request *)
| Spinning (st : locals).   (* still inside the read loop *)

Definition final_locals (s : thread_status) : locals :=
  match s with Alive st | Terminated st | Spinning st => st end.

(** One pass of the outer [while(1)]: the calls made on the looper object
    and the state afterwards. *)
Definition iteration (p : platform) (fds : thread_fds) (st : locals)
  (w : wait_result) (reads : list read_result)
  : list sink_call * thread_status :=
  if w_ret w <=? 0 then ([], Alive st)
  else if exit_requested fds w then ([], Terminated st)
  else if readable p fds w then
    match read_loop st reads with
    | LoopLeft st' calls (Some dataRead) =>
        (calls ++ [insertInDataQueue dataRead], Alive st')
    | LoopLeft st' calls None => (calls, Alive st')
    | LoopSpinning st' => ([], Spinning st')
    end
  else if error_flagged p w then
    let c := errorCount st + 1 in
    if c =? 100
    then ([insertInDataErrorQueue (error_code p w)],
          Alive (set_errorCount st 0))
    else ([], Alive (set_errorCount st c))
  else ([], Alive st).

(** The outer [while(1)] over a sequence of wake-ups, each with the
    [read] results it meets.  The result lists the calls of every pass,
    in order, and the state after the last pass that ran. *)
Fixpoint data_looper_loop (p : platform) (fds : thread_fds) (st : locals)
  (inputs : list (wait_result * list read_result))
  : list (list sink_call) * thread_status :=
  match inputs with
  | [] => ([], Alive st)
  | (w, reads) :: rest =>
      match iteration p fds st w reads with
      | (calls, Alive st') =>
          let '(trace, s) := data_looper_loop p fds st' rest in
          (calls :: trace, s)
      | (calls, s) => ([calls], s)
      end
  end.

(** A wake-up that reports a link error: the wait succeeded, no exit was
    requested, the port is not reported readable, and the error flag the
    platform tests is set. *)
Definition hard_link_error (p : platform) (fds : thread_fds)
  (w : wait_result) : bool :=
  (0 <? w_ret w) && negb (exit_requested fds w)
  && negb (readable p fds w) && error_flagged p w.

(** A wake-up that reports data on the port. *)
Definition data_ready (p : platform) (fds : thread_fds)
  (w : wait_result) : bool :=
  (0 <? w_ret w) && negb (exit_requested fds w) && readable p fds w.

End Loop.

(** Values of the constants on Linux (glibc, [sys/epoll.h]); [EV_ERROR] is
    the value of macOS's [sys/event.h], unused by the Linux code. *)
Definition linux_consts : SysConsts :=
  {| EINTR := 4; EPOLLIN := 1; EPOLLERR := 8; EPOLLHUP := 16;
     EV_ERROR := 16384 |}.

(** *** Bounds of the stores into [final_buf] *)

Section Bounds.
Context `{SysConsts}.

Lemma copy_loop_log_bounded (n : nat) :
  forall (i : Z) (buf fb : list jbyte) (log : list Z),
    0 <= i ->
    i + Z.of_nat n <= BUFFER_SIZE ->
    Forall (fun pos => 0 <= pos < BUFFER_SIZE) log ->
    Forall (fun pos => 0 <= pos < BUFFER_SIZE)
      (snd (copy_loop n i buf fb log)).
Proof.
  induction n as [|n IH]; intros i buf fb log Hi Hn Hlog; simpl.
  - exact Hlog.
  - apply IH; [lia | lia |].
    apply Forall_app; split; [exact Hlog|].
    constructor; [lia | constructor].
Qed.

Lemma copy_from_index_index (st : locals) (ret : Z) :
  index (copy_from_index st ret) = index st.
Proof.
  unfold copy_from_index.
  destruct (copy_loop _ _ _ _ _); reflexivity.
Qed.

Lemma copy_from_index_partialData (st : locals) (ret : Z) :
  partialData (copy_from_index st ret) = partialData st.
Proof.
  unfold copy_from_index.
  destruct (copy_loop _ _ _ _ _); reflexivity.
Qed.

Lemma copy_from_index_stores (st : locals) (ret : Z) :
  stores (copy_from_index st ret)
  = snd (copy_loop (Z.to_nat (ret - index st)) (index st)
           (buffer st) (final_buf st) (stores st)).
Proof.
  unfold copy_from_index.
  destruct (copy_loop _ _ _ _ _); reflexivity.
Qed.

Lemma copy_from_index_bounded (st : locals) (ret : Z) :
  chunk_bounded st -> ret <= BUFFER_SIZE ->
  chunk_bounded (copy_from_index st ret).
Proof.
  intros [Hidx Hlog] Hret. split.
  - rewrite copy_from_index_index. exact Hidx.
  - rewrite copy_from_index_stores.
    apply copy_loop_log_bounded; [lia | lia | exact Hlog].
Qed.

Lemma read_loop_bounded (reads : list read_result) :
  forall st : locals,
    chunk_bounded st ->
    Forall read_within_chunk reads ->
    chunk_bounded (loop_locals (read_loop st reads)).
Proof.
  induction reads as [|r rest IH]; intros st Hst Hreads; simpl.
  - exact Hst.
  - inversion Hreads as [|? ? [Hret Hlen] Hrest]; subst.
    assert (Hbuf : chunk_bounded (set_buffer st (read_into (buffer st) r)))
      by exact Hst.
    destruct ((0 <? rd_ret r) && (rd_errno r =? 0)) eqn:Hok.
    { simpl partialData. destruct (partialData st =? 1); simpl.
      - apply copy_from_index_bounded; assumption.
      - exact Hst. }
    destruct ((0 <? rd_ret r) && (rd_errno r =? EINTR)) eqn:Hpart.
    { apply IH; [|exact Hrest].
      apply andb_prop in Hpart as [Hpos _]. apply Z.ltb_lt in Hpos.
      pose proof (copy_from_index_bounded _ _ Hbuf Hret) as [_ Hlog].
      split; simpl; [lia | exact Hlog]. }
    destruct (rd_ret r <? 0).
    { destruct (rd_errno r =? EINTR); [apply IH; assumption | exact Hst]. }
    destruct (rd_ret r =? 0); [exact Hst | apply IH; assumption].
Qed.

Lemma iteration_bounded (p : platform) (fds : thread_fds) (st : locals)
  (w : wait_result) (reads : list read_result) :
  chunk_bounded st ->
  Forall read_within_chunk reads ->
  chunk_bounded (final_locals (snd (iteration p fds st w reads))).
Proof.
  intros Hst Hreads. unfold iteration.
  destruct (w_ret w <=? 0); [exact Hst|].
  destruct (exit_requested fds w); [exact Hst|].
  destruct (readable p fds w).
  - pose proof (read_loop_bounded reads st Hst Hreads) as Hloop.
    destruct (read_loop st reads) as [st' calls [d|] | st']; exact Hloop.
  - destruct (error_flagged p w); [|exact Hst].
    destruct (errorCount st + 1 =? 100); exact Hst.
Qed.

Lemma run_bounded (p : platform) (fds : thread_fds)
  (inputs : list (wait_result * list read_result)) :
  forall st : locals,
    chunk_bounded st ->
    Forall (fun inp => Forall read_within_chunk (snd inp)) inputs ->
    chunk_bounded (final_locals (snd (data_looper_loop p fds st inputs))).
Proof.
  induction inputs as [|[w reads] rest IH]; intros st Hst Hin; simpl.
  - exact Hst.
  - inversion Hin as [|? ? Hreads Hrest]; subst. simpl in Hreads.
    pose proof (iteration_bounded p fds st w reads Hst Hreads) as Hit.
    destruct (iteration p fds st w reads) as [calls [st'|st'|st']];
      simpl in Hit.
    + specialize (IH st' Hit Hrest).
      destruct (data_looper_loop p fds st' rest) as [trace s]. exact IH.
    + exact Hit.
    + exact Hit.
Qed.

End Bounds.

(** C10: every store into [final_buf] (3072 elements) is in bounds.  From
    the declared initial locals, whatever the thread is woken with and
    whatever [read] returns within its 1024-byte count, the carry index
    only ever holds a value between 0 and 1024 and every store happened at
    a position below 1024, hence below 3072. *)
Theorem final_buf_stores_in_bounds `{SysConsts} (p : platform)
  (fds : thread_fds) (buffer0 final_buf0 : list jbyte)
  (inputs : list (wait_result * list read_result)) :
  Forall (fun inp => Forall read_within_chunk (snd inp)) inputs ->
  let st' :=
    final_locals
      (snd (data_looper_loop p fds (initial_locals buffer0 final_buf0)
              inputs))
  in
  0 <= index st' <= BUFFER_SIZE
  /\ Forall (fun pos => 0 <= pos < BUFFER_SIZE) (stores st')
  /\ Forall (fun pos => 0 <= pos < FINAL_BUF_SIZE) (stores st').
Proof.
  intros Hin st'.
  assert (Hinit : chunk_bounded (initial_locals buffer0 final_buf0)).
  { split; simpl; [unfold BUFFER_SIZE; lia | constructor]. }
  destruct (run_bounded p fds inputs _ Hinit Hin) as [Hidx Hlog].
  fold st' in Hidx, Hlog.
  split; [exact Hidx|]. split; [exact Hlog|].
  eapply Forall_impl; [exact Hlog|].
  intros pos Hpos. simpl in Hpos.
  unfold BUFFER_SIZE in Hpos. unfold FINAL_BUF_SIZE. lia.
Qed.

Lemma final_buf_stores_in_bounds_witness :
  let fds := {| fd := 7; wake_fd := 9 |} in
  let w := {| w_ret := 1; w_ident0 := 7; w_flags0 := 1; w_data0 := 0;
              w_ident1 := 0; w_thread_exit := 0 |} in
  let inputs :=
    [(w, [ {| rd_ret := 4; rd_errno := 4; rd_bytes := [1; 2; 3; 4] |};
           {| rd_ret := 6; rd_errno := 0;
              rd_bytes := [5; 6; 7; 8; 9; 10] |} ])] in
  let st' :=
    final_locals
      (snd (data_looper_loop (H := linux_consts) Linux fds
              (initial_locals (repeat 0 1024) (repeat 0 3072)) inputs)) in
  stores st' = [0; 1; 2; 3; 4; 5]
  /\ Forall (fun pos => 0 <= pos < FINAL_BUF_SIZE) (stores st').
Proof.
  intros fds w inputs st'. split; [reflexivity|].
  apply (final_buf_stores_in_bounds (H := linux_consts) Linux fds
           (repeat 0 1024) (repeat 0 3072) inputs).
  repeat constructor; simpl; unfold BUFFER_SIZE; lia.
Defined.

(** *** Throttling of error notifications *)

Section Throttle.
Context `{SysConsts}.

Lemma iteration_hard_link_error (p : platform) (fds : thread_fds)
  (st : locals) (w : wait_result) (reads : list read_result) :
  hard_link_error p fds w = true ->
  iteration p fds st w reads =
    if errorCount st + 1 =? 100
    then ([insertInDataErrorQueue (error_code p w)],
          Alive (set_errorCount st 0))
    else ([], Alive (set_errorCount st (errorCount st + 1))).
Proof.
  unfold hard_link_error. intros Hw.
  apply andb_prop in Hw as [Hw Herr].
  apply andb_prop in Hw as [Hw Hread].
  apply andb_prop in Hw as [Hret Hexit].
  apply negb_true_iff in Hread, Hexit. apply Z.ltb_lt in Hret.
  unfold iteration.
  replace (w_ret w <=? 0) with false by (symmetry; apply Z.leb_gt; lia).
  rewrite Hexit, Hread, Herr. reflexivity.
Qed.

(** After [n] consecutive link errors met with the counter at [c], the
    counter is [(c + n) mod 100], the thread is still in its loop, and the
    [k]-th of them (from 0) was reported exactly when [c + k + 1] is a
    multiple of 100. *)
Lemma run_error_storm (p : platform) (fds : thread_fds)
  (inputs : list (wait_result * list read_result)) :
  forall st : locals,
    Forall (fun inp => hard_link_error p fds (fst inp) = true) inputs ->
    0 <= errorCount st < 100 ->
    snd (data_looper_loop p fds st inputs)
    = Alive (set_errorCount st
               ((errorCount st + Z.of_nat (length inputs)) mod 100))
    /\ length (fst (data_looper_loop p fds st inputs)) = length inputs
    /\ forall (k : nat) (inp : wait_result * list read_result),
         inputs !! k = Some inp ->
         fst (data_looper_loop p fds st inputs) !! k
         = Some (if (errorCount st + Z.of_nat k + 1) mod 100 =? 0
                 then [insertInDataErrorQueue (error_code p (fst inp))]
                 else []).
Proof.
  induction inputs as [|[w reads] rest IH]; intros st Hin Hc.
  - simpl. split; [|split; [reflexivity|]].
    + rewrite Z.add_0_r, Z.mod_small by lia.
      destruct st; reflexivity.
    + intros k inp Hk. destruct k; discriminate.
  - inversion Hin as [|? ? Hw Hrest]; subst. simpl in Hw.
    simpl data_looper_loop.
    rewrite (iteration_hard_link_error p fds st w reads Hw).
    set (c1 := if errorCount st + 1 =? 100 then 0 else errorCount st + 1).
    assert (Hc1 : 0 <= c1 < 100 /\ c1 = (errorCount st + 1) mod 100).
    { subst c1. destruct (Z.eqb_spec (errorCount st + 1) 100) as [E|E].
      - rewrite E. split; [lia|reflexivity].
      - rewrite Z.mod_small by lia. lia. }
    destruct Hc1 as [Hc1 Hmod].
    assert (Hstep :
      (if errorCount st + 1 =? 100
       then ([insertInDataErrorQueue (error_code p w)],
             Alive (set_errorCount st 0))
       else ([], Alive (set_errorCount st (errorCount st + 1))))
      = (if (errorCount st + 0 + 1) mod 100 =? 0
         then [insertInDataErrorQueue (error_code p w)] else [],
         Alive (set_errorCount st c1))).
    { subst c1. destruct (Z.eqb_spec (errorCount st + 1) 100) as [E|E].
      - replace (errorCount st + 0 + 1) with 100 by lia. reflexivity.
      - replace ((errorCount st + 0 + 1) mod 100 =? 0) with false;
          [reflexivity|].
        symmetry. apply Z.eqb_neq.
        rewrite Z.add_0_r, Z.mod_small by lia. lia. }
    rewrite Hstep. clear Hstep.
    specialize (IH (set_errorCount st c1) Hrest Hc1).
    destruct IH as (IHs & IHlen & IHk).
    destruct (data_looper_loop p fds (set_errorCount st c1) rest)
      as [trace s] eqn:Hrun.
    cbn [fst snd] in IHs, IHlen, IHk |- *.
    split; [|split].
    + rewrite IHs.
      assert (E : (c1 + Z.of_nat (length rest)) mod 100
                  = (errorCount st
                     + Z.of_nat (length ((w, reads) :: rest))) mod 100).
      { rewrite Hmod, Zplus_mod_idemp_l. f_equal.
        change (length ((w, reads) :: rest)) with (S (length rest)). lia. }
      cbn [set_errorCount errorCount]. rewrite E. reflexivity.
    + change (length ((w, reads) :: rest)) with (S (length rest)).
      cbn [length]. rewrite IHlen. reflexivity.
    + intros k inp Hk. destruct k as [|k].
      * injection Hk as <-. reflexivity.
      * change (((w, reads) :: rest) !! S k) with (rest !! k) in Hk.
        match goal with
        | |- (?x :: ?t) !! S k = _ => change ((x :: t) !! S k) with (t !! k)
        end.
        rewrite (IHk k inp Hk).
        assert (E : (c1 + Z.of_nat k + 1) mod 100
                    = (errorCount st + Z.of_nat (S k) + 1) mod 100).
        { rewrite Hmod, <- !Z.add_assoc, Zplus_mod_idemp_l. f_equal. lia. }
        cbn [set_errorCount errorCount]. rewrite E. reflexivity.
Qed.

End Throttle.

(** The calls of a storm of [n] link errors that starts with the counter
    at 0, pass by pass. *)
Lemma error_storm_trace `{SysConsts} (p : platform) (fds : thread_fds)
  (st : locals) (inputs : list (wait_result * list read_result))
  (d : wait_result * list read_result) :
  errorCount st = 0 ->
  Forall (fun inp => hard_link_error p fds (fst inp) = true) inputs ->
  fst (data_looper_loop p fds st inputs)
  = map (fun k : nat =>
           if (Z.of_nat k + 1) mod 100 =? 0
           then [insertInDataErrorQueue (error_code p (fst (nth k inputs d)))]
           else [])
        (seq 0 (length inputs)).
Proof.
  intros Hc Hin.
  destruct (run_error_storm p fds inputs st Hin ltac:(lia))
    as (_ & Hlen & Hk).
  apply list_eq. intros k.
  destruct (decide (k < length inputs)%nat) as [Hlt|Hge].
  - destruct (lookup_lt_is_Some_2 inputs k Hlt) as [inp Hinp].
    rewrite (Hk k inp Hinp), Hc, Z.add_0_l.
    rewrite list_lookup_fmap, lookup_seq_lt by exact Hlt.
    simpl. rewrite (nth_lookup_Some _ _ d _ Hinp). reflexivity.
  - rewrite lookup_ge_None_2 by (rewrite Hlen; lia).
    rewrite lookup_ge_None_2; [reflexivity|].
    rewrite length_map, length_seq. lia.
Qed.

(** C5: error notifications are throttled by a counter with threshold 100.
    For 250 consecutive wake-ups flagged as link errors, met from the
    initial state, the error entry point of the looper object is called
    exactly twice, in the 100th and in the 200th pass (with the code of
    that wake-up), no other pass calls anything, the counter restarts
    from 0 after each notification (it is 50 at the end), and the thread
    is still in its loop. *)
Theorem error_storm_notified_twice `{SysConsts} (p : platform)
  (fds : thread_fds) (buffer0 final_buf0 : list jbyte)
  (inputs : list (wait_result * list read_result)) :
  length inputs = 250%nat ->
  Forall (fun inp => hard_link_error p fds (fst inp) = true) inputs ->
  let res :=
    data_looper_loop p fds (initial_locals buffer0 final_buf0) inputs in
  (forall (k : nat) (w : wait_result) (reads : list read_result),
      inputs !! k = Some (w, reads) ->
      fst res !! k
      = Some (if bool_decide (k = 99%nat \/ k = 199%nat)
              then [insertInDataErrorQueue (error_code p w)]
              else []))
  /\ (forall (w99 w199 : wait_result) (r99 r199 : list read_result),
        inputs !! 99%nat = Some (w99, r99) ->
        inputs !! 199%nat = Some (w199, r199) ->
        concat (fst res)
        = [insertInDataErrorQueue (error_code p w99);
           insertInDataErrorQueue (error_code p w199)])
  /\ length (concat (fst res)) = 2%nat
  /\ (exists st', snd res = Alive st' /\ errorCount st' = 50)
  /\ (forall n : nat,
        exists st',
          snd (data_looper_loop p fds (initial_locals buffer0 final_buf0)
                 (take n inputs)) = Alive st').
Proof.
  intros Hlen Hin res.
  assert (Hinit : 0 <= errorCount (initial_locals buffer0 final_buf0) < 100)
    by (simpl; lia).
  destruct (run_error_storm p fds inputs _ Hin Hinit) as (Hs & _ & Hk).
  fold res in Hs, Hk.
  assert (Hconcat : forall d,
    concat (fst res)
    = [insertInDataErrorQueue (error_code p (fst (nth 99 inputs d)));
       insertInDataErrorQueue (error_code p (fst (nth 199 inputs d)))]).
  { intros d. subst res.
    rewrite (error_storm_trace p fds (initial_locals buffer0 final_buf0)
               inputs d eq_refl Hin), Hlen.
    set (h := fun k : nat =>
                insertInDataErrorQueue (error_code p (fst (nth k inputs d)))).
    change (concat
              (map (fun k : nat =>
                      if (Z.of_nat k + 1) mod 100 =? 0 then [h k] else [])
                 (seq 0 250)) = [h 99%nat; h 199%nat]).
    clearbody h. vm_compute. reflexivity. }
  split; [|split; [|split; [|split]]].
  - intros k w reads Hinp.
    rewrite (Hk k (w, reads) Hinp). simpl. f_equal.
    assert (Hlt : (k < 250)%nat).
    { rewrite <- Hlen. eapply lookup_lt_Some; exact Hinp. }
    case_bool_decide as Hd.
    + replace ((0 + Z.of_nat k + 1) mod 100 =? 0) with true; [reflexivity|].
      symmetry. apply Z.eqb_eq. destruct Hd; subst k; reflexivity.
    + replace ((0 + Z.of_nat k + 1) mod 100 =? 0) with false; [reflexivity|].
      symmetry. apply Z.eqb_neq. intros E. apply Hd.
      clear - E Hlt. Z.div_mod_to_equations. lia.
  - intros w99 w199 r99 r199 H99 H199.
    rewrite (Hconcat (w99, r99)).
    rewrite (nth_lookup_Some _ _ _ _ H99), (nth_lookup_Some _ _ _ _ H199).
    reflexivity.
  - destruct inputs as [|d rest]; [discriminate|].
    rewrite (Hconcat d). reflexivity.
  - eexists. split; [exact Hs|]. simpl. rewrite Hlen. reflexivity.
  - intros n.
    assert (Hin' : Forall (fun inp => hard_link_error p fds (fst inp) = true)
                     (take n inputs)) by (apply Forall_take; exact Hin).
    destruct (run_error_storm p fds (take n inputs) _ Hin' Hinit)
      as (Hs' & _). eexists. exact Hs'.
Qed.

Lemma error_storm_notified_twice_witness :
  let fds := {| fd := 7; wake_fd := 9 |} in
  let w := {| w_ret := 1; w_ident0 := 7; w_flags0 := 8; w_data0 := 0;
              w_ident1 := 0; w_thread_exit := 0 |} in
  let inputs := replicate 250 (w, @nil read_result) in
  length inputs = 250%nat
  /\ Forall (fun inp => hard_link_error (H := linux_consts) Linux fds
                          (fst inp) = true) inputs
  /\ concat (fst (data_looper_loop (H := linux_consts) Linux fds
                    (initial_locals [] []) inputs))
     = [insertInDataErrorQueue 8; insertInDataErrorQueue 8].
Proof.
  intros fds w inputs.
  assert (Hlen : length inputs = 250%nat) by reflexivity.
  assert (Hin : Forall (fun inp => hard_link_error (H := linux_consts) Linux
                                     fds (fst inp) = true) inputs)
    by (apply Forall_replicate; reflexivity).
  split; [exact Hlen|]. split; [exact Hin|].
  destruct (error_storm_notified_twice (H := linux_consts) Linux fds [] []
              inputs Hlen Hin) as (_ & Hc & _).
  exact (Hc w w [] [] eq_refl eq_refl).
Defined.

(** *** Reassembly of partial reads *)

Section Reassembly.
Context `{SysConsts}.

Lemma iteration_data_ready (p : platform) (fds : thread_fds)
  (st : locals) (w : wait_result) (reads : list read_result) :
  data_ready p fds w = true ->
  iteration p fds st w reads =
    match read_loop st reads with
    | LoopLeft st' calls (Some dataRead) =>
        (calls ++ [insertInDataQueue dataRead], Alive st')
    | LoopLeft st' calls None => (calls, Alive st')
    | LoopSpinning st' => ([], Spinning st')
    end.
Proof.
  unfold data_ready. intros Hw.
  apply andb_prop in Hw as [Hw Hread].
  apply andb_prop in Hw as [Hret Hexit].
  apply negb_true_iff in Hexit. apply Z.ltb_lt in Hret.
  unfold iteration.
  replace (w_ret w <=? 0) with false by (symmetry; apply Z.leb_gt; lia).
  rewrite Hexit, Hread. reflexivity.
Qed.

(** Nothing in the read loop clears the partial-data flag or the carry
    index once a partial read has set them. *)
Lemma read_loop_partial_sticky (reads : list read_result) :
  forall st : locals,
    partialData st = 1 ->
    partialData (loop_locals (read_loop st reads)) = 1.
Proof.
  induction reads as [|r rest IH]; intros st Hp; simpl; [exact Hp|].
  rewrite Hp. simpl.
  destruct ((0 <? rd_ret r) && (rd_errno r =? 0)).
  { simpl. rewrite copy_from_index_partialData. exact Hp. }
  destruct ((0 <? rd_ret r) && (rd_errno r =? EINTR)).
  { apply IH. reflexivity. }
  destruct (rd_ret r <? 0).
  { destruct (rd_errno r =? EINTR); [apply IH|]; exact Hp. }
  destruct (rd_ret r =? 0); [|apply IH]; exact Hp.
Qed.

End Reassembly.

(** C1 (the code departs from it): a 4-byte partial read followed by the
    6-byte completing read is handed to the looper object as one array of
    10 bytes, but the array is not the concatenation of the two chunks.
    The completing chunk is copied from position [index] of [buffer] to
    position [index] of [final_buf], so the array holds the partial chunk,
    then bytes 4 and 5 of the completion, then four bytes that
    [final_buf] held before; the first four bytes of the completion are
    lost. *)
Theorem partial_read_single_delivery_misassembled `{SysConsts}
  (p : platform) (fds : thread_fds) (w : wait_result)
  (buffer0 final_buf0 : list jbyte)
  (a0 a1 a2 a3 b0 b1 b2 b3 b4 b5 : jbyte) :
  EINTR <> 0 ->
  data_ready p fds w = true ->
  length final_buf0 = 3072%nat ->
  let partial :=
    {| rd_ret := 4; rd_errno := EINTR; rd_bytes := [a0; a1; a2; a3] |} in
  let completion :=
    {| rd_ret := 6; rd_errno := 0;
       rd_bytes := [b0; b1; b2; b3; b4; b5] |} in
  let delivered := [a0; a1; a2; a3; b4; b5] ++ take 4 (drop 6 final_buf0) in
  fst (iteration p fds (initial_locals buffer0 final_buf0) w
         [partial; completion])
  = [insertInDataQueue delivered]
  /\ length delivered = 10%nat
  /\ (b0 <> b4 -> delivered <> rd_bytes partial ++ rd_bytes completion).
Proof.
  intros HE Hw Hlen partial completion delivered.
  subst partial completion delivered.
  rewrite iteration_data_ready by exact Hw.
  destruct final_buf0 as [|g0 [|g1 [|g2 [|g3 [|g4 [|g5 rest]]]]]];
    try discriminate Hlen.
  cbn [read_loop rd_ret rd_errno rd_bytes].
  replace (EINTR =? 0) with false by (symmetry; apply Z.eqb_neq; exact HE).
  rewrite Z.eqb_refl.
  cbn.
  split; [reflexivity|].
  split.
  - rewrite length_take, length_drop. simpl in Hlen. lia.
  - intros Hb E. injection E as E4 _. congruence.
Qed.

Lemma partial_read_single_delivery_misassembled_witness :
  let fds := {| fd := 7; wake_fd := 9 |} in
  let w := {| w_ret := 1; w_ident0 := 7; w_flags0 := 1; w_data0 := 0;
              w_ident1 := 0; w_thread_exit := 0 |} in
  @EINTR linux_consts <> 0
  /\ data_ready (H := linux_consts) Linux fds w = true
  /\ length (replicate 3072 (77 : jbyte)) = 3072%nat
  /\ fst (iteration (H := linux_consts) Linux fds
            (initial_locals (replicate 1024 0) (replicate 3072 77)) w
            [ {| rd_ret := 4; rd_errno := 4; rd_bytes := [1; 2; 3; 4] |};
              {| rd_ret := 6; rd_errno := 0;
                 rd_bytes := [5; 6; 7; 8; 9; 10] |} ])
     = [insertInDataQueue [1; 2; 3; 4; 9; 10; 77; 77; 77; 77]].
Proof.
  intros fds w.
  assert (HE : @EINTR linux_consts <> 0) by (simpl; lia).
  assert (Hw : data_ready (H := linux_consts) Linux fds w = true)
    by reflexivity.
  assert (Hlen : length (replicate 3072 (77 : jbyte)) = 3072%nat)
    by reflexivity.
  split; [exact HE|]. split; [exact Hw|]. split; [exact Hlen|].
  destruct (partial_read_single_delivery_misassembled (H := linux_consts)
              Linux fds w (replicate 1024 0) (replicate 3072 77)
              1 2 3 4 5 6 7 8 9 10 HE Hw Hlen) as (Hd & _).
  exact Hd.
Defined.

(** The pass that meets a 4-byte partial read and its 6-byte completion,
    from the initial locals: the call it makes and the locals it leaves. *)
Lemma first_transfer_pass `{SysConsts} (p : platform) (fds : thread_fds)
  (w : wait_result) (buffer0 rest : list jbyte)
  (g0 g1 g2 g3 g4 g5 a0 a1 a2 a3 b0 b1 b2 b3 b4 b5 : jbyte) :
  EINTR <> 0 ->
  data_ready p fds w = true ->
  exists buffer1 : list jbyte,
    iteration p fds
      (initial_locals buffer0 (g0 :: g1 :: g2 :: g3 :: g4 :: g5 :: rest)) w
      [ {| rd_ret := 4; rd_errno := EINTR; rd_bytes := [a0; a1; a2; a3] |};
        {| rd_ret := 6; rd_errno := 0;
           rd_bytes := [b0; b1; b2; b3; b4; b5] |} ]
    = ([insertInDataQueue ([a0; a1; a2; a3; b4; b5] ++ take 4 rest)],
       Alive {| index := 4; partialData := 1; errorCount := 0;
                buffer := buffer1;
                final_buf := a0 :: a1 :: a2 :: a3 :: b4 :: b5 :: rest;
                stores := [0; 1; 2; 3; 4; 5] |}).
Proof.
  intros HE Hw.
  rewrite iteration_data_ready by exact Hw.
  cbn [read_loop rd_ret rd_errno rd_bytes].
  replace (EINTR =? 0) with false by (symmetry; apply Z.eqb_neq; exact HE).
  rewrite Z.eqb_refl.
  cbn. eexists. reflexivity.
Qed.

(** C8 (the code departs from it): the partial-data flag and the carry
    index are not reset when the assembled chunk is delivered.  After the
    pass that assembled a 4-byte partial read and its completion, the flag
    is still 1 and the index still 4, so a later wake-up whose single
    read returns 3 fresh bytes cleanly delivers 7 bytes taken from the
    accumulator (the old contents), and none of the fresh bytes. *)
Theorem accumulator_not_reset_after_delivery `{SysConsts}
  (p : platform) (fds : thread_fds) (w1 w2 : wait_result)
  (buffer0 final_buf0 : list jbyte)
  (a0 a1 a2 a3 b0 b1 b2 b3 b4 b5 c0 c1 c2 : jbyte) :
  EINTR <> 0 ->
  data_ready p fds w1 = true ->
  data_ready p fds w2 = true ->
  length final_buf0 = 3072%nat ->
  let partial :=
    {| rd_ret := 4; rd_errno := EINTR; rd_bytes := [a0; a1; a2; a3] |} in
  let completion :=
    {| rd_ret := 6; rd_errno := 0;
       rd_bytes := [b0; b1; b2; b3; b4; b5] |} in
  let fresh := {| rd_ret := 3; rd_errno := 0; rd_bytes := [c0; c1; c2] |} in
  let st0 := initial_locals buffer0 final_buf0 in
  let first := [a0; a1; a2; a3; b4; b5] ++ take 4 (drop 6 final_buf0) in
  let second := [a0; a1; a2; a3; b4; b5] ++ take 1 (drop 6 final_buf0) in
  (exists st1,
      snd (iteration p fds st0 w1 [partial; completion]) = Alive st1
      /\ partialData st1 = 1 /\ index st1 = 4)
  /\ fst (data_looper_loop p fds st0
            [(w1, [partial; completion]); (w2, [fresh])])
     = [[insertInDataQueue first]; [insertInDataQueue second]]
  /\ length second = 7%nat
  /\ second <> rd_bytes fresh.
Proof.
  intros HE Hw1 Hw2 Hlen partial completion fresh st0 first second.
  subst partial completion fresh st0 first second.
  destruct final_buf0 as [|g0 [|g1 [|g2 [|g3 [|g4 [|g5 rest]]]]]];
    try discriminate Hlen.
  destruct (first_transfer_pass p fds w1 buffer0 rest g0 g1 g2 g3 g4 g5
              a0 a1 a2 a3 b0 b1 b2 b3 b4 b5 HE Hw1) as [buffer1 Hfirst].
  split; [|split; [|split]].
  - rewrite Hfirst. eexists. split; [reflexivity|]. split; reflexivity.
  - cbn [data_looper_loop]. rewrite Hfirst.
    rewrite iteration_data_ready by exact Hw2.
    reflexivity.
  - cbn [drop app]. cbn [length]. rewrite length_take, length_drop.
    simpl in Hlen. lia.
  - intros E. apply (f_equal length) in E.
    cbn [drop app rd_bytes length] in E. lia.
Qed.

Lemma accumulator_not_reset_after_delivery_witness :
  let fds := {| fd := 7; wake_fd := 9 |} in
  let w := {| w_ret := 1; w_ident0 := 7; w_flags0 := 1; w_data0 := 0;
              w_ident1 := 0; w_thread_exit := 0 |} in
  @EINTR linux_consts <> 0
  /\ data_ready (H := linux_consts) Linux fds w = true
  /\ length (replicate 3072 (77 : jbyte)) = 3072%nat
  /\ fst (data_looper_loop (H := linux_consts) Linux fds
            (initial_locals (replicate 1024 0) (replicate 3072 77))
            [ (w, [ {| rd_ret := 4; rd_errno := 4;
                       rd_bytes := [1; 2; 3; 4] |};
                    {| rd_ret := 6; rd_errno := 0;
                       rd_bytes := [5; 6; 7; 8; 9; 10] |} ]);
              (w, [ {| rd_ret := 3; rd_errno := 0;
                       rd_bytes := [11; 12; 13] |} ]) ])
     = [ [insertInDataQueue [1; 2; 3; 4; 9; 10; 77; 77; 77; 77]];
         [insertInDataQueue [1; 2; 3; 4; 9; 10; 77]] ].
Proof.
  intros fds w.
  assert (HE : @EINTR linux_consts <> 0) by (simpl; lia).
  assert (Hw : data_ready (H := linux_consts) Linux fds w = true)
    by reflexivity.
  assert (Hlen : length (replicate 3072 (77 : jbyte)) = 3072%nat)
    by reflexivity.
  split; [exact HE|]. split; [exact Hw|]. split; [exact Hlen|].
  destruct (accumulator_not_reset_after_delivery (H := linux_consts)
              Linux fds w w (replicate 1024 0) (replicate 3072 77)
              1 2 3 4 5 6 7 8 9 10 11 12 13 HE Hw Hw Hlen) as (_ & Hd & _).
  exact Hd.
Defined.

End DataLooper.

(* ===================================================================== *)
(** ** [event_looper]: the modem-status listener thread *)
(* ===================================================================== *)

Module EventLooper.

(** Modem-line bits of [TIOCMGET], from the system's [termios] headers. *)
Class ModemConsts := {
  TIOCM_CTS : Z;
  TIOCM_DSR : Z;
  TIOCM_CD : Z;
  TIOCM_RI : Z;
}.

(** The bits of the event handed to the Java layer, as declared at the
    top of [event_looper]. *)
Definition CTS : Z := 0x01.
Definition DSR : Z := 0x02.
Definition DCD : Z := 0x04.
Definition RI : Z := 0x08.

(** What the system calls of one pass of the loop returned: the result of
    [ioctl(fd, TIOCMIWAIT, ...)] (Linux only; macOS sleeps 0.5 s instead),
    the result of [ioctl(fd, TIOCMGET, &lines_status)] and the status word
    it stored. *)
Record cycle_input := CycleInput {
  iwait_ret : Z;
  get_ret : Z;
  lines_status : Z;
}.

(** Modem-line bits on Linux and on macOS (the values agree). *)
Definition unix_modem_consts : ModemConsts :=
  {| TIOCM_CTS := 0x020; TIOCM_DSR := 0x100;
     TIOCM_CD := 0x040; TIOCM_RI := 0x080 |}.

(** The deliveries an edge-triggered listener makes for a sequence of
    masks: a mask is delivered when it differs from the one delivered
    last ([prev]), following the words of the specification. *)
Fixpoint edge_triggered (prev : Z) (masks : list Z) : list Z :=
  match masks with
  | [] => []
  | m :: rest =>
      if m =? prev then edge_triggered prev rest
      else m :: edge_triggered m rest
  end.

Section Loop.
Context `{ModemConsts}.

(** [(lines_status & mask) ? 1 : 0] *)
Definition line_state (status mask : Z) : Z :=
  if Z.land status mask =? 0 then 0 else 1.

(** The decoding of the status word into [event]. *)
Definition decode_event (status : Z) : Z :=
  let cts := line_state status TIOCM_CTS in
  let dsr := line_state status TIOCM_DSR in
  let dcd := line_state status TIOCM_CD in
  let ri := line_state status TIOCM_RI in
  let event := 0 in
  let event := if cts =? 0 then event else Z.lor event CTS in
  let event := if dsr =? 0 then event else Z.lor event DSR in
  let event := if dcd =? 0 then event else Z.lor event DCD in
  let event := if ri =? 0 then event else Z.lor event RI in
  event.

(** One pass of the [while(1)] of [event_looper]: the events handed to
    [insertInEventQueue] and the new value of [oldstate] (a local of the
    macOS build only). *)
Definition cycle (p : platform) (oldstate : Z) (c : cycle_input)
  : list Z * Z :=
  match p with
  | Linux =>
      if iwait_ret c <? 0 then ([], oldstate)
      else if get_ret c <? 0 then ([], oldstate)
      else ([decode_event (lines_status c)], oldstate)
  | Apple =>
      if get_ret c <? 0 then ([], oldstate)
      else
        let newstate := decode_event (lines_status c) in
        if negb (newstate =? oldstate) then ([newstate], newstate)
        else ([], oldstate)
  end.

(** The loop over a sequence of passes: the events of each pass. *)
Fixpoint event_looper_loop (p : platform) (oldstate : Z) (cs : list cycle_input)
  : list (list Z) :=
  match cs with
  | [] => []
  | c :: rest =>
      let '(calls, oldstate') := cycle p oldstate c in
      calls :: event_looper_loop p oldstate' rest
  end.

(** A pass in which both system calls succeed and the status word is [s]. *)
Definition polled (s : Z) : cycle_input :=
  {| iwait_ret := 0; get_ret := 0; lines_status := s |}.

(** Only the CTS line may be up in status word [s]. *)
Definition others_low (s : Z) : Prop :=
  Z.land s TIOCM_DSR = 0 /\ Z.land s TIOCM_CD = 0 /\ Z.land s TIOCM_RI = 0.

End Loop.

Section Properties.
Context `{ModemConsts}.

Lemma line_state_cases (s mask : Z) :
  (Z.land s mask = 0 /\ line_state s mask = 0)
  \/ (Z.land s mask <> 0 /\ line_state s mask = 1).
Proof.
  unfold line_state. destruct (Z.eqb_spec (Z.land s mask) 0); auto.
Qed.

(** The event is the 4-bit mask of the four lines. *)
Lemma decode_event_mask (s : Z) :
  decode_event s
  = line_state s TIOCM_CTS * CTS + line_state s TIOCM_DSR * DSR
    + line_state s TIOCM_CD * DCD + line_state s TIOCM_RI * RI
  /\ 0 <= decode_event s < 16.
Proof.
  unfold decode_event.
  destruct (line_state_cases s TIOCM_CTS) as [[_ ->]|[_ ->]];
  destruct (line_state_cases s TIOCM_DSR) as [[_ ->]|[_ ->]];
  destruct (line_state_cases s TIOCM_CD) as [[_ ->]|[_ ->]];
  destruct (line_state_cases s TIOCM_RI) as [[_ ->]|[_ ->]];
  vm_compute; repeat split; congruence.
Qed.

Lemma decode_event_bits (s : Z) :
  Z.testbit (decode_event s) 0 = negb (Z.land s TIOCM_CTS =? 0)
  /\ Z.testbit (decode_event s) 1 = negb (Z.land s TIOCM_DSR =? 0)
  /\ Z.testbit (decode_event s) 2 = negb (Z.land s TIOCM_CD =? 0)
  /\ Z.testbit (decode_event s) 3 = negb (Z.land s TIOCM_RI =? 0).
Proof.
  unfold decode_event, line_state.
  destruct (Z.land s TIOCM_CTS =? 0), (Z.land s TIOCM_DSR =? 0),
    (Z.land s TIOCM_CD =? 0), (Z.land s TIOCM_RI =? 0);
    repeat split; reflexivity.
Qed.

(** Linux: every pass whose two [ioctl]s succeed delivers its mask. *)
Lemma linux_delivers_every_cycle (oldstate : Z) (statuses : list Z) :
  event_looper_loop Linux oldstate (map polled statuses)
  = map (fun s => [decode_event s]) statuses.
Proof.
  induction statuses as [|s rest IH]; simpl; [reflexivity|].
  rewrite IH. reflexivity.
Qed.

(** macOS: the deliveries are those of an edge-triggered listener that
    starts from [oldstate]. *)
Lemma apple_delivers_on_change (statuses : list Z) :
  forall oldstate : Z,
    concat (event_looper_loop Apple oldstate (map polled statuses))
    = edge_triggered oldstate (map decode_event statuses).
Proof.
  induction statuses as [|s rest IH]; intros oldstate; simpl;
    [reflexivity|].
  destruct (decode_event s =? oldstate); simpl; rewrite IH; reflexivity.
Qed.

End Properties.

Lemma decode_event_cts_only `{ModemConsts} (s : Z) :
  others_low s ->
  decode_event s = if Z.land s TIOCM_CTS =? 0 then 0 else CTS.
Proof.
  intros (Hdsr & Hcd & Hri).
  unfold decode_event, line_state. rewrite Hdsr, Hcd, Hri.
  destruct (Z.land s TIOCM_CTS =? 0); reflexivity.
Qed.

(** C6: each pass decodes the modem-status word into the 4-bit mask
    CTS=0x01, DSR=0x02, DCD=0x04, RI=0x08.  The macOS build delivers the
    mask only when it differs from the mask delivered last (initially 0,
    all lines low), so the CTS sequence 0, 1, 1, 0 with the other lines low
    gives exactly two deliveries (mask 1, then mask 0); the Linux build
    delivers the mask of every pass, four deliveries for that sequence. *)
Theorem event_delivery_edge_on_apple_always_on_linux `{ModemConsts}
  (s0 s1 s2 s3 : Z) :
  others_low s0 -> others_low s1 -> others_low s2 -> others_low s3 ->
  Z.land s0 TIOCM_CTS = 0 ->
  Z.land s1 TIOCM_CTS <> 0 ->
  Z.land s2 TIOCM_CTS <> 0 ->
  Z.land s3 TIOCM_CTS = 0 ->
  (forall s : Z,
      0 <= decode_event s < 16
      /\ Z.testbit (decode_event s) 0 = negb (Z.land s TIOCM_CTS =? 0)
      /\ Z.testbit (decode_event s) 1 = negb (Z.land s TIOCM_DSR =? 0)
      /\ Z.testbit (decode_event s) 2 = negb (Z.land s TIOCM_CD =? 0)
      /\ Z.testbit (decode_event s) 3 = negb (Z.land s TIOCM_RI =? 0))
  /\ (forall (statuses : list Z) (oldstate : Z),
        concat (event_looper_loop Apple oldstate (map polled statuses))
        = edge_triggered oldstate (map decode_event statuses))
  /\ (forall (statuses : list Z) (oldstate : Z),
        event_looper_loop Linux oldstate (map polled statuses)
        = map (fun s => [decode_event s]) statuses)
  /\ event_looper_loop Apple 0 (map polled [s0; s1; s2; s3])
     = [[]; [CTS]; []; [0]]
  /\ length (concat (event_looper_loop Apple 0 (map polled [s0; s1; s2; s3])))
     = 2%nat
  /\ event_looper_loop Linux 0 (map polled [s0; s1; s2; s3])
     = [[0]; [CTS]; [CTS]; [0]].
Proof.
  intros Ho0 Ho1 Ho2 Ho3 H0 H1 H2 H3.
  assert (D0 : decode_event s0 = 0).
  { rewrite decode_event_cts_only, H0 by exact Ho0. reflexivity. }
  assert (D3 : decode_event s3 = 0).
  { rewrite decode_event_cts_only, H3 by exact Ho3. reflexivity. }
  assert (D1 : decode_event s1 = CTS).
  { rewrite decode_event_cts_only by exact Ho1.
    destruct (Z.eqb_spec (Z.land s1 TIOCM_CTS) 0); [contradiction|].
    reflexivity. }
  assert (D2 : decode_event s2 = CTS).
  { rewrite decode_event_cts_only by exact Ho2.
    destruct (Z.eqb_spec (Z.land s2 TIOCM_CTS) 0); [contradiction|].
    reflexivity. }
  assert (HA : event_looper_loop Apple 0 (map polled [s0; s1; s2; s3])
               = [[]; [CTS]; []; [0]]).
  { simpl. rewrite D0. simpl. rewrite D1. simpl. rewrite D2. simpl.
    rewrite D3. reflexivity. }
  split.
  { intros s. split; [apply decode_event_mask|apply decode_event_bits]. }
  split; [intros; apply apple_delivers_on_change|].
  split; [intros; apply linux_delivers_every_cycle|].
  split; [exact HA|].
  split; [rewrite HA; reflexivity|].
  simpl. rewrite D0, D1, D2, D3. reflexivity.
Qed.

Lemma event_delivery_edge_on_apple_always_on_linux_witness :
  others_low (H := unix_modem_consts) 0
  /\ others_low (H := unix_modem_consts) 0x20
  /\ Z.land 0 (@TIOCM_CTS unix_modem_consts) = 0
  /\ Z.land 0x20 (@TIOCM_CTS unix_modem_consts) <> 0
  /\ concat (event_looper_loop (H := unix_modem_consts) Apple 0
               (map polled [0; 0x20; 0x20; 0]))
     = [1; 0].
Proof.
  assert (Hlow0 : others_low (H := unix_modem_consts) 0)
    by (repeat split).
  assert (Hlow1 : others_low (H := unix_modem_consts) 0x20)
    by (repeat split).
  assert (Hc0 : Z.land 0 (@TIOCM_CTS unix_modem_consts) = 0)
    by reflexivity.
  assert (Hc1 : Z.land 0x20 (@TIOCM_CTS unix_modem_consts) <> 0)
    by (vm_compute; discriminate).
  split; [exact Hlow0|]. split; [exact Hlow1|].
  split; [exact Hc0|]. split; [exact Hc1|].
  destruct (event_delivery_edge_on_apple_always_on_linux
              (H := unix_modem_consts) 0 0x20 0x20 0
              Hlow0 Hlow1 Hlow1 Hlow0 Hc0 Hc1 Hc1 Hc0)
    as (_ & _ & _ & HA & _).
  rewrite HA. reflexivity.
Defined.

End EventLooper.

(* ===================================================================== *)
(** ** [port_monitor]: the port presence monitor *)
(* ===================================================================== *)

Module PortMonitor.

(** Constants of the system headers used by the monitor.  [ENOENT] is not
    named by the code: it is the [errno] of a path that does not exist,
    which the removal probe meets in its final [else]. *)
Class MonitorConsts := {
  EACCES : Z;
  ELOOP : Z;
  ENAMETOOLONG : Z;
  ENOMEM : Z;
  ENOTDIR : Z;
  EOVERFLOW : Z;
  EFAULT : Z;
  ENOENT : Z;
  kIOMessageServiceIsTerminated : Z;   (* IOKit/IOMessage.h *)
}.

(** [errno.h] of Linux; [kIOMessageServiceIsTerminated] of IOKit. *)
Definition linux_errnos : MonitorConsts :=
  {| EACCES := 13; ELOOP := 40; ENAMETOOLONG := 36; ENOMEM := 12;
     ENOTDIR := 20; EOVERFLOW := 75; EFAULT := 14; ENOENT := 2;
     kIOMessageServiceIsTerminated := 0xe0000010 |}.

(** [errno.h] of macOS. *)
Definition apple_errnos : MonitorConsts :=
  {| EACCES := 13; ELOOP := 62; ENAMETOOLONG := 63; ENOMEM := 12;
     ENOTDIR := 20; EOVERFLOW := 84; EFAULT := 14; ENOENT := 2;
     kIOMessageServiceIsTerminated := 0xe0000010 |}.

(** A call of [onPortMonitorEvent] through [CallVoidMethod]: the listener
    object, the method id and the event code (1 added, 2 removed). *)
Record port_call := PortCall {
  pc_listener : Z;
  pc_mid : Z;
  pc_code : Z;
}.

(** A wake-up of the Linux monitor: what [select] returned, whether the
    udev descriptor is set, the action of the received device ([None] when
    [udev_monitor_receive_device] returned NULL), and what [stat] on the
    port name returns ([errno] is meaningful when it fails). *)
Record udev_wakeup := UdevWakeup {
  sel_ret : Z;
  fd_isset : bool;
  device_action : option string;
  stat_ret : Z;
  stat_errno : Z;
}.

(** Pointers to [struct port_info] objects. *)
Definition ptr := nat.

(** The fields of the macOS [struct port_info] the monitor uses. *)
Record port_info := PortInfo {
  pi_env : Z;
  pi_port_listener : Z;
  pi_mid : Z;
  pi_data : ptr;
  pi_notification_port : Z;
  pi_tempVal : Z;
}.

(** [struct driver_ref] *)
Record driver_ref := DriverRef {
  dr_service : Z;
  dr_notification : Z;
  dr_data : ptr;
}.

(** Memory the macOS monitor works on: the [port_info] objects, and the
    globals [pm_info] (2048 slots) and [pm_index]. *)
Record monitor_state := MonitorState {
  heap : gmap ptr port_info;
  pm_info : list (option driver_ref);
  pm_index : Z;
}.

(** What the set-up part of the macOS [port_monitor] meets. *)
Record monitor_setup := MonitorSetup {
  attach_ok : bool;        (* AttachCurrentThread returned JNI_OK *)
  class_found : bool;      (* GetObjectClass returned non-NULL *)
  su_env : Z;
  su_mid : option Z;       (* GetMethodID, None for NULL *)
  signal_ok : bool;        (* signal() did not return SIG_ERR *)
  dictionary_ok : bool;    (* IOServiceMatching returned non-NULL *)
  su_notification_port : Z;
}.

(** Notifications the run loop dispatches: a matching notification with
    the services of its iterator (each with the notification object
    [IOServiceAddInterestNotification] creates for it), or an interest
    notification for a driver reference, with the message type and what
    [stat] on the port name returns. *)
Inductive notification :=
| DeviceAdded (iterator : list (Z * Z))
| DeviceRemoved (dref : driver_ref) (messageType : Z)
    (stat_ret stat_errno : Z).

(** How the macOS [port_monitor] went. *)
Inductive monitor_result :=
| SetupFailed                       (* [pthread_exit] during set-up *)
| BadPointer                        (* a pointer outside the heap *)
| Dispatched (trace : list (list port_call)) (st : monitor_state).

Definition set_tempVal (pinfo : port_info) (v : Z) : port_info :=
  {| pi_env := pi_env pinfo; pi_port_listener := pi_port_listener pinfo;
     pi_mid := pi_mid pinfo; pi_data := pi_data pinfo;
     pi_notification_port := pi_notification_port pinfo;
     pi_tempVal := v |}.

(** The loop of [device_added] over the iterator: one [driver_ref] per
    service, stored at [pm_info[pm_index]], then [pm_index++].  (A store
    past the last slot leaves the list as it is.) *)
Fixpoint register_services (data : ptr) (iterator : list (Z * Z))
  (info : list (option driver_ref)) (idx : Z)
  : list (option driver_ref) * Z :=
  match iterator with
  | [] => (info, idx)
  | (service, notif) :: rest =>
      let dref := {| dr_service := service; dr_notification := notif;
                     dr_data := data |} in
      register_services data rest (<[Z.to_nat idx := Some dref]> info)
        (idx + 1)
  end.

(** [device_added(refCon, iterator)] *)
Definition device_added (st : monitor_state) (refCon : ptr)
  (iterator : list (Z * Z)) : option (monitor_state * list port_call) :=
  match heap st !! refCon with
  | None => None
  | Some pinfo =>
      let '(h, calls) :=
        if negb (pi_tempVal pinfo =? 0)
        then (heap st,
              [ {| pc_listener := pi_port_listener pinfo;
                   pc_mid := pi_mid pinfo; pc_code := 1 |} ])
        else (<[refCon := set_tempVal pinfo 1]> (heap st), [])
      in
      let '(info, idx) :=
        register_services (pi_data pinfo) iterator (pm_info st) (pm_index st)
      in
      Some ({| heap := h; pm_info := info; pm_index := idx |}, calls)
  end.

Section Monitor.
Context `{MonitorConsts}.

(** The [if]/[else if] chain on the result of [stat] that the Linux
    [port_monitor] and the macOS [device_removed] both contain: [true]
    when control reaches the final [else], which reports the removal. *)
Definition probe_reports_removal (ret errno : Z) : bool :=
  if ret =? 0 then false
  else if errno =? EACCES then false
  else if errno =? ELOOP then false
  else if errno =? ENAMETOOLONG then false
  else if errno =? ENOMEM then false
  else if errno =? ENOTDIR then false
  else if errno =? EOVERFLOW then false
  else if errno =? EFAULT then false
  else true.

(** One pass of the [while(1)] of the Linux [port_monitor].  Between
    receiving the device and testing its action the code calls
    [serial_delay(500)] ([SerialDelay.port_monitor_settle_delay]), which
    makes no call on the listener. *)
Definition port_monitor_pass (port_listener mid : Z) (e : udev_wakeup)
  : list port_call :=
  if (0 <? sel_ret e) && fd_isset e then
    match device_action e with
    | None => []
    | Some action =>
        if String.eqb action "add"%string then
          [ {| pc_listener := port_listener; pc_mid := mid; pc_code := 1 |} ]
        else if String.eqb action "remove"%string then
          if probe_reports_removal (stat_ret e) (stat_errno e)
          then [ {| pc_listener := port_listener; pc_mid := mid;
                    pc_code := 2 |} ]
          else []
        else []
    end
  else [].

(** [device_removed(refCon, service, messageType, messageArgument)], with
    the result of its [stat]; [None] when the driver reference points
    outside the heap. *)
Definition device_removed (h : gmap ptr port_info) (dref : driver_ref)
  (messageType ret errno : Z) : option (list port_call) :=
  if messageType =? kIOMessageServiceIsTerminated then
    if probe_reports_removal ret errno then
      match h !! dr_data dref with
      | None => None
      | Some pinfo =>
          Some [ {| pc_listener := pi_port_listener pinfo;
                    pc_mid := pi_mid pinfo; pc_code := 2 |} ]
      end
    else Some []
  else Some [].

(** The run loop: each notification is dispatched to its callback;
    [refCon] is the pointer given to [IOServiceAddMatchingNotification]. *)
Fixpoint run_loop (st : monitor_state) (refCon : ptr)
  (events : list notification)
  : option (list (list port_call) * monitor_state) :=
  match events with
  | [] => Some ([], st)
  | DeviceAdded iterator :: rest =>
      match device_added st refCon iterator with
      | None => None
      | Some (st', calls) =>
          match run_loop st' refCon rest with
          | None => None
          | Some (trace, st'') => Some (calls :: trace, st'')
          end
      end
  | DeviceRemoved dref messageType ret errno :: rest =>
      match device_removed (heap st) dref messageType ret errno with
      | None => None
      | Some calls =>
          match run_loop st refCon rest with
          | None => None
          | Some (trace, st') => Some (calls :: trace, st')
          end
      end
  end.

(** The macOS [port_monitor(arg)]: set-up, the first call of
    [device_added] on the devices already [present], then the run loop.
    The first element of the trace holds the calls of that first pass. *)
Definition port_monitor_apple (st : monitor_state) (arg : ptr)
  (su : monitor_setup) (present : list (Z * Z))
  (events : list notification) : monitor_result :=
  match heap st !! arg with
  | None => BadPointer
  | Some params =>
      let port_listener := pi_port_listener params in
      if negb (attach_ok su) then SetupFailed
      else if negb (class_found su) then SetupFailed
      else
        match su_mid su with
        | None => SetupFailed
        | Some mid =>
            let params1 :=
              {| pi_env := su_env su; pi_port_listener := port_listener;
                 pi_mid := mid; pi_data := pi_data params;
                 pi_notification_port := pi_notification_port params;
                 pi_tempVal := 0 |} in
            if negb (signal_ok su) then SetupFailed
            else if negb (dictionary_ok su) then SetupFailed
            else
              let params2 :=
                {| pi_env := pi_env params1;
                   pi_port_listener := pi_port_listener params1;
                   pi_mid := pi_mid params1; pi_data := pi_data params1;
                   pi_notification_port := su_notification_port su;
                   pi_tempVal := pi_tempVal params1 |} in
              let st1 :=
                {| heap := <[arg := params2]> (heap st);
                   pm_info := pm_info st; pm_index := pm_index st |} in
              let refCon := pi_data params2 in
              match device_added st1 refCon present with
              | None => BadPointer
              | Some (st2, calls0) =>
                  match run_loop st2 refCon events with
                  | None => BadPointer
                  | Some (trace, st3) => Dispatched (calls0 :: trace) st3
                  end
              end
        end
  end.

(** The probe failed with one of the codes the chain only logs. *)
Definition benign_errno (errno : Z) : Prop :=
  errno = EACCES \/ errno = ELOOP \/ errno = ENAMETOOLONG
  \/ errno = ENOMEM \/ errno = ENOTDIR \/ errno = EOVERFLOW
  \/ errno = EFAULT.

(** A wake-up of the Linux monitor that carries a "remove" action. *)
Definition remove_wakeup (ret errno : Z) : udev_wakeup :=
  {| sel_ret := 1; fd_isset := true; device_action := Some "remove"%string;
     stat_ret := ret; stat_errno := errno |}.

(** Every driver reference of a removal notification belongs to [arg]. *)
Definition refs_point_to (arg : ptr) (events : list notification) : Prop :=
  Forall (fun ev =>
            match ev with
            | DeviceRemoved dref _ _ _ => dr_data dref = arg
            | DeviceAdded _ => True
            end) events.

(** The monitor is past its first enumeration pass: the [port_info] at
    [arg] points back to itself, names listener [l] and method [m], and
    its one-shot flag [tempVal] is set. *)
Definition armed (st : monitor_state) (arg : ptr) (l m : Z) : Prop :=
  exists pinfo : port_info,
    heap st !! arg = Some pinfo
    /\ pi_tempVal pinfo = 1 /\ pi_data pinfo = arg
    /\ pi_port_listener pinfo = l /\ pi_mid pinfo = m.

End Monitor.

Section Removal.
Context `{MonitorConsts}.

Lemma probe_reports_removal_iff (ret errno : Z) :
  probe_reports_removal ret errno = true
  <-> ret <> 0 /\ ~ benign_errno errno.
Proof.
  unfold probe_reports_removal, benign_errno.
  destruct (Z.eqb_spec ret 0) as [Hr|Hr].
  { split; [discriminate | intros [Hc _]; contradiction]. }
  destruct (Z.eqb_spec errno EACCES); [split; [discriminate|tauto]|].
  destruct (Z.eqb_spec errno ELOOP); [split; [discriminate|tauto]|].
  destruct (Z.eqb_spec errno ENAMETOOLONG); [split; [discriminate|tauto]|].
  destruct (Z.eqb_spec errno ENOMEM); [split; [discriminate|tauto]|].
  destruct (Z.eqb_spec errno ENOTDIR); [split; [discriminate|tauto]|].
  destruct (Z.eqb_spec errno EOVERFLOW); [split; [discriminate|tauto]|].
  destruct (Z.eqb_spec errno EFAULT); [split; [discriminate|tauto]|].
  split; [intros _|reflexivity]. split; [exact Hr | tauto].
Qed.

Lemma probe_benign_silent (ret errno : Z) :
  benign_errno errno -> probe_reports_removal ret errno = false.
Proof.
  intros Hb. destruct (probe_reports_removal ret errno) eqn:E;
    [|reflexivity].
  apply probe_reports_removal_iff in E as [_ Hn]. contradiction.
Qed.

End Removal.

(** C4: on a removal notification the monitor probes the port path with
    [stat] and hands code 2 to the port listener only when the probe
    fails with a code outside the ones it merely logs.  A failure coded
    permission denied, symlink loop or path too long gives no call; a
    failure coded path-does-not-exist gives exactly one call, with code
    2.  This holds for the Linux loop and for the macOS callback. *)
Theorem removal_event_follows_probe `{MonitorConsts}
  (port_listener mid : Z) (h : gmap ptr port_info) (dref : driver_ref)
  (pinfo : port_info) :
  ~ benign_errno ENOENT ->
  h !! dr_data dref = Some pinfo ->
  let removed_linux :=
    {| pc_listener := port_listener; pc_mid := mid; pc_code := 2 |} in
  let removed_apple :=
    {| pc_listener := pi_port_listener pinfo; pc_mid := pi_mid pinfo;
       pc_code := 2 |} in
  (forall ret errno : Z,
      (forall c, In c (port_monitor_pass port_listener mid
                         (remove_wakeup ret errno)) ->
                 c = removed_linux /\ ret <> 0 /\ ~ benign_errno errno)
      /\ (forall calls c,
             device_removed h dref kIOMessageServiceIsTerminated ret errno
             = Some calls ->
             In c calls ->
             c = removed_apple /\ ret <> 0 /\ ~ benign_errno errno))
  /\ (forall ret errno : Z,
        ret <> 0 ->
        errno = EACCES \/ errno = ELOOP \/ errno = ENAMETOOLONG ->
        port_monitor_pass port_listener mid (remove_wakeup ret errno) = []
        /\ device_removed h dref kIOMessageServiceIsTerminated ret errno
           = Some [])
  /\ (forall ret : Z,
        ret <> 0 ->
        port_monitor_pass port_listener mid (remove_wakeup ret ENOENT)
        = [removed_linux]
        /\ device_removed h dref kIOMessageServiceIsTerminated ret ENOENT
           = Some [removed_apple]).
Proof.
  intros Hnoent Hh removed_linux removed_apple.
  assert (Hpass : forall ret errno,
    port_monitor_pass port_listener mid (remove_wakeup ret errno)
    = if probe_reports_removal ret errno then [removed_linux] else [])
    by reflexivity.
  assert (Hcb : forall ret errno,
    device_removed h dref kIOMessageServiceIsTerminated ret errno
    = Some (if probe_reports_removal ret errno then [removed_apple] else [])).
  { intros ret errno. unfold device_removed.
    rewrite Z.eqb_refl, Hh.
    destruct (probe_reports_removal ret errno); reflexivity. }
  split; [|split].
  - intros ret errno. split.
    + intros c. rewrite Hpass.
      destruct (probe_reports_removal ret errno) eqn:E; [|intros []].
      intros [<-|[]]. split; [reflexivity|].
      apply probe_reports_removal_iff. exact E.
    + intros calls c. rewrite Hcb. intros [= <-].
      destruct (probe_reports_removal ret errno) eqn:E; [|intros []].
      intros [<-|[]]. split; [reflexivity|].
      apply probe_reports_removal_iff. exact E.
  - intros ret errno Hret Herr.
    assert (Hb : benign_errno errno) by (unfold benign_errno; tauto).
    rewrite Hpass, Hcb, (probe_benign_silent ret errno Hb).
    split; reflexivity.
  - intros ret Hret.
    assert (E : probe_reports_removal ret ENOENT = true)
      by (apply probe_reports_removal_iff; split; assumption).
    rewrite Hpass, Hcb, E. split; reflexivity.
Qed.

Lemma removal_event_follows_probe_witness :
  let pinfo := {| pi_env := 1; pi_port_listener := 5; pi_mid := 6;
                  pi_data := 0%nat; pi_notification_port := 0;
                  pi_tempVal := 1 |} in
  let h : gmap ptr port_info := {[ 0%nat := pinfo ]} in
  let dref := {| dr_service := 3; dr_notification := 4;
                 dr_data := 0%nat |} in
  ~ benign_errno (H := linux_errnos) (@ENOENT linux_errnos)
  /\ h !! dr_data dref = Some pinfo
  /\ port_monitor_pass (H := linux_errnos) 5 6 (remove_wakeup (-1) 2)
     = [ {| pc_listener := 5; pc_mid := 6; pc_code := 2 |} ]
  /\ port_monitor_pass (H := linux_errnos) 5 6 (remove_wakeup (-1) 13) = [].
Proof.
  intros pinfo h dref.
  assert (Hn : ~ benign_errno (H := linux_errnos) (@ENOENT linux_errnos)).
  { unfold benign_errno; simpl. lia. }
  assert (Hh : h !! dr_data dref = Some pinfo) by reflexivity.
  split; [exact Hn|]. split; [exact Hh|].
  destruct (removal_event_follows_probe (H := linux_errnos) 5 6 h dref
              pinfo Hn Hh) as (_ & Hbenign & Hgone).
  split.
  - exact (proj1 (Hgone (-1) ltac:(lia))).
  - refine (proj1 (Hbenign (-1) 13 ltac:(lia) _)). left. reflexivity.
Defined.

(** *** Suppression of the first enumeration pass *)

Section FirstPass.
Context `{MonitorConsts}.

Lemma device_added_armed (st : monitor_state) (arg : ptr) (l m : Z)
  (iterator : list (Z * Z)) :
  armed st arg l m ->
  exists st',
    device_added st arg iterator
    = Some (st', [ {| pc_listener := l; pc_mid := m; pc_code := 1 |} ])
    /\ armed st' arg l m.
Proof.
  intros (pinfo & Hh & Ht & Hd & Hl & Hm).
  unfold device_added. rewrite Hh, Ht. simpl.
  destruct (register_services (pi_data pinfo) iterator (pm_info st)
              (pm_index st)) as [info idx].
  eexists. split.
  - rewrite Hl, Hm. reflexivity.
  - exists pinfo. simpl. repeat split; assumption.
Qed.

Lemma device_removed_armed (st : monitor_state) (arg : ptr) (l m : Z)
  (dref : driver_ref) (messageType ret errno : Z) :
  armed st arg l m ->
  dr_data dref = arg ->
  exists calls,
    device_removed (heap st) dref messageType ret errno = Some calls.
Proof.
  intros (pinfo & Hh & _) Hd. unfold device_removed. rewrite Hd, Hh.
  destruct (messageType =? kIOMessageServiceIsTerminated);
    [|eexists; reflexivity].
  destruct (probe_reports_removal ret errno); eexists; reflexivity.
Qed.

(** Once armed, the run loop answers every matching notification with
    exactly one "added" call, whatever else it dispatches in between. *)
Lemma run_loop_armed (arg : ptr) (l m : Z) (events : list notification) :
  forall st : monitor_state,
    armed st arg l m ->
    refs_point_to arg events ->
    exists trace st',
      run_loop st arg events = Some (trace, st')
      /\ length trace = length events
      /\ forall (k : nat) (iterator : list (Z * Z)),
           events !! k = Some (DeviceAdded iterator) ->
           trace !! k
           = Some [ {| pc_listener := l; pc_mid := m; pc_code := 1 |} ].
Proof.
  induction events as [|ev rest IH]; intros st Harmed Hrefs.
  - exists [], st. split; [reflexivity|]. split; [reflexivity|].
    intros k it Hk. destruct k; discriminate.
  - inversion Hrefs as [|? ? Hev Hrest]; subst.
    destruct ev as [iterator | dref messageType ret errno].
    + destruct (device_added_armed st arg l m iterator Harmed)
        as (st1 & Hadd & Harmed1).
      destruct (IH st1 Harmed1 Hrest) as (trace & st' & Hrun & Hlen & Hk).
      exists ([ {| pc_listener := l; pc_mid := m; pc_code := 1 |} ] :: trace),
        st'.
      split; [simpl; rewrite Hadd, Hrun; reflexivity|].
      split; [simpl; rewrite Hlen; reflexivity|].
      intros k it Hlook. destruct k as [|k]; [reflexivity|].
      exact (Hk k it Hlook).
    + destruct (device_removed_armed st arg l m dref messageType ret errno
                  Harmed Hev) as (calls & Hrem).
      destruct (IH st Harmed Hrest) as (trace & st' & Hrun & Hlen & Hk).
      exists (calls :: trace), st'.
      split; [simpl; rewrite Hrem, Hrun; reflexivity|].
      split; [simpl; rewrite Hlen; reflexivity|].
      intros k it Hlook. destruct k as [|k]; [discriminate|].
      exact (Hk k it Hlook).
Qed.

End FirstPass.

(** C7: the first, synthetic "added" notification is suppressed by the
    one-shot flag [tempVal].  Started on a [port_info] whose back pointer
    [data] designates itself, with a set-up that succeeds, the monitor
    makes no call at all during the first enumeration pass, whatever
    devices are already present, and afterwards answers every
    device-added notification with exactly one call, with code 1, on the
    listener it was started with. *)
Theorem first_enumeration_suppressed `{MonitorConsts}
  (st : monitor_state) (arg : ptr) (params : port_info)
  (su : monitor_setup) (mid : Z) (present : list (Z * Z))
  (events : list notification) :
  heap st !! arg = Some params ->
  pi_data params = arg ->
  attach_ok su = true ->
  class_found su = true ->
  su_mid su = Some mid ->
  signal_ok su = true ->
  dictionary_ok su = true ->
  refs_point_to arg events ->
  exists (trace : list (list port_call)) (st' : monitor_state),
    port_monitor_apple st arg su present events = Dispatched trace st'
    /\ length trace = S (length events)
    /\ trace !! 0%nat = Some []
    /\ forall (k : nat) (iterator : list (Z * Z)),
         events !! k = Some (DeviceAdded iterator) ->
         trace !! S k
         = Some [ {| pc_listener := pi_port_listener params;
                     pc_mid := mid; pc_code := 1 |} ].
Proof.
  intros Hh Hself Hat Hcl Hmid Hsig Hdict Hrefs.
  unfold port_monitor_apple.
  rewrite Hh, Hat, Hcl, Hmid, Hsig, Hdict. cbn [negb pi_data].
  rewrite Hself.
  unfold device_added at 1. cbn [heap pm_info pm_index].
  rewrite lookup_insert_eq. cbn [pi_tempVal pi_data negb Z.eqb].
  destruct (register_services arg present (pm_info st) (pm_index st))
    as [info idx].
  match goal with
  | |- context [run_loop ?s arg events] => set (st2 := s)
  end.
  assert (Harmed : armed st2 arg (pi_port_listener params) mid).
  { eexists. subst st2. cbn [heap].
    rewrite lookup_insert_eq. repeat split. }
  destruct (run_loop_armed arg _ _ events st2 Harmed Hrefs)
    as (trace & st' & Hrun & Hlen & Hk).
  rewrite Hrun. exists ([] :: trace), st'.
  split; [reflexivity|].
  split; [simpl; rewrite Hlen; reflexivity|].
  split; [reflexivity|].
  intros k it Hlook. exact (Hk k it Hlook).
Qed.

Lemma first_enumeration_suppressed_witness :
  let params := {| pi_env := 0; pi_port_listener := 5; pi_mid := 0;
                   pi_data := 0%nat; pi_notification_port := 0;
                   pi_tempVal := 9 |} in
  let st := {| heap := {[ 0%nat := params ]};
               pm_info := replicate 2048 None; pm_index := 0 |} in
  let su := {| attach_ok := true; class_found := true; su_env := 1;
               su_mid := Some 6; signal_ok := true; dictionary_ok := true;
               su_notification_port := 2 |} in
  let events := [DeviceAdded [(101, 201)]] in
  heap st !! 0%nat = Some params
  /\ pi_data params = 0%nat
  /\ refs_point_to 0%nat events
  /\ exists trace st',
       port_monitor_apple (H := apple_errnos) st 0%nat su [(100, 200)] events
       = Dispatched trace st'
       /\ trace !! 0%nat = Some []
       /\ trace !! 1%nat
          = Some [ {| pc_listener := 5; pc_mid := 6; pc_code := 1 |} ].
Proof.
  intros params st su events.
  assert (Hh : heap st !! 0%nat = Some params) by reflexivity.
  assert (Hrefs : refs_point_to 0%nat events)
    by (repeat constructor).
  split; [exact Hh|]. split; [reflexivity|]. split; [exact Hrefs|].
  destruct (first_enumeration_suppressed (H := apple_errnos) st 0%nat params
              su 6 [(100, 200)] events Hh eq_refl eq_refl eq_refl eq_refl
              eq_refl eq_refl Hrefs)
    as (trace & st' & Hrun & _ & H0 & Hk).
  exists trace, st'. split; [exact Hrun|]. split; [exact H0|].
  exact (Hk 0%nat [(101, 201)] eq_refl).
Defined.

End PortMonitor.

(* ===================================================================== *)
(** ** Set-up part of [data_looper] *)
(* ===================================================================== *)

Module DataLooperInit.

(** Result of a system call: its return value, and the value of [errno]
    at the point where the thread reads it. *)
Record syscall := Syscall { sc_ret : Z; sc_errno : Z }.

(** What the set-up part of [data_looper] meets. *)
Record init_env := InitEnv {
  attach_ok : bool;            (* AttachCurrentThread returned JNI_OK *)
  class_found : bool;          (* GetObjectClass returned non-NULL *)
  mid_found : bool;            (* GetMethodID insertInDataQueue *)
  mide_found : bool;           (* GetMethodID insertInDataErrorQueue *)
  sys_eventfd : syscall;       (* Linux: eventfd(0, EFD_NONBLOCK) *)
  sys_epoll_create : syscall;  (* Linux: epoll_create(2) *)
  sys_epoll_ctl_port : syscall;
  sys_epoll_ctl_exit : syscall;
  sys_pipe : syscall;          (* macOS: pipe(pipe1) *)
  pipe_read_end : Z;           (* pipe1[0] *)
  pipe_write_end : Z;          (* pipe1[1] *)
  sys_kqueue : syscall;        (* macOS: kqueue() *)
}.

(** What the thread does to state it shares with the registering caller
    ([struct com_thread_params], the mutex) and to its own resources, in
    program order. *)
Inductive action :=
| Lock                          (* pthread_mutex_lock(params->mutex) *)
| Unlock                        (* pthread_mutex_unlock(params->mutex) *)
| SetDataInitDone (v : Z)       (* params->data_init_done = v *)
| SaveEvfd (fd : Z)             (* params->evfd = fd *)
| Close (fd : Z)
| Detach                        (* DetachCurrentThread *)
| ThreadExit.                   (* pthread_exit *)

(** The value [data_init_done] has before the thread writes it
    ("0 is default" in [unix_like_serial_lib.h]). *)
Definition INIT_PENDING : Z := 0.

(** The values written to [data_init_done], oldest first. *)
Fixpoint reports (t : list action) : list Z :=
  match t with
  | [] => []
  | SetDataInitDone v :: rest => v :: reports rest
  | _ :: rest => reports rest
  end.

(** Every write to [data_init_done] happens while the thread holds the
    mutex ([held] tells whether it holds it at the start of [t]). *)
Fixpoint writes_under_mutex (held : bool) (t : list action) : bool :=
  match t with
  | [] => true
  | Lock :: rest => writes_under_mutex true rest
  | Unlock :: rest => writes_under_mutex false rest
  | SetDataInitDone _ :: rest => held && writes_under_mutex held rest
  | _ :: rest => writes_under_mutex held rest
  end.

(** Whether the thread holds the mutex after [t]. *)
Fixpoint mutex_held_after (held : bool) (t : list action) : bool :=
  match t with
  | [] => held
  | Lock :: rest => mutex_held_after true rest
  | Unlock :: rest => mutex_held_after false rest
  | _ :: rest => mutex_held_after held rest
  end.

(** A failing system call leaves a positive [errno]. *)
Definition sets_errno (s : syscall) : Prop := sc_ret s < 0 -> 0 < sc_errno s.

Definition env_sets_errno (e : init_env) : Prop :=
  sets_errno (sys_eventfd e) /\ sets_errno (sys_epoll_create e)
  /\ sets_errno (sys_epoll_ctl_port e) /\ sets_errno (sys_epoll_ctl_exit e)
  /\ sets_errno (sys_pipe e) /\ sets_errno (sys_kqueue e).

(** The failure exits that follow a successful attach: the flag is set,
    the thread detaches, releases the mutex and ends. *)
Definition fail_attached (before : list action) (code : Z)
  (after : list action) : list action * option DataLooper.thread_fds :=
  (Lock :: before ++ SetDataInitDone code :: after
     ++ [Detach; Unlock; ThreadExit], None).

(** [data_looper] from its first statement to the [while(1)]: the actions
    performed and, when the loop is entered, the descriptors it works on
    (the port and the descriptor that wakes the wait). *)
Definition data_looper_init (p : platform) (fd : Z) (e : init_env)
  : list action * option DataLooper.thread_fds :=
  let negative := -1 in
  if negb (attach_ok e) then
    ([Lock; SetDataInitDone (-240); Unlock; ThreadExit], None)
  else if negb (class_found e) then fail_attached [] (-240) []
  else if negb (mid_found e) then fail_attached [] (-240) []
  else if negb (mide_found e) then fail_attached [] (-240) []
  else
    match p with
    | Linux =>
        if sc_ret (sys_eventfd e) <? 0 then
          fail_attached [] (negative * sc_errno (sys_eventfd e)) []
        else
          let evfd := sc_ret (sys_eventfd e) in
          let epfd := sc_ret (sys_epoll_create e) in
          if epfd <? 0 then
            fail_attached [SaveEvfd evfd; Close evfd]
              (negative * sc_errno (sys_epoll_create e)) []
          else if sc_ret (sys_epoll_ctl_port e) <? 0 then
            fail_attached [SaveEvfd evfd; Close epfd; Close evfd]
              (negative * sc_errno (sys_epoll_ctl_port e)) []
          else if sc_ret (sys_epoll_ctl_exit e) <? 0 then
            fail_attached [SaveEvfd evfd; Close epfd; Close evfd]
              (negative * sc_errno (sys_epoll_ctl_exit e)) []
          else
            ([Lock; SaveEvfd evfd; SetDataInitDone 1; Unlock],
             Some {| DataLooper.fd := fd; DataLooper.wake_fd := evfd |})
    | Apple =>
        if sc_ret (sys_pipe e) <? 0 then
          fail_attached [] (negative * sc_errno (sys_pipe e)) []
        else if sc_ret (sys_kqueue e) <? 0 then
          fail_attached [SaveEvfd (pipe_write_end e)]
            (negative * sc_errno (sys_kqueue e))
            [Close (pipe_read_end e); Close (pipe_write_end e)]
        else
          ([Lock; SaveEvfd (pipe_write_end e); SetDataInitDone 1; Unlock],
           Some {| DataLooper.fd := fd;
                   DataLooper.wake_fd := pipe_read_end e |})
    end.

(** The thread's report, as the specification words it: it leaves the
    pending state exactly once, under the mutex, for 1 when the loop is
    entered and for a negative code otherwise. *)
Definition reports_once (r : list action * option DataLooper.thread_fds)
  : Prop :=
  exists v : Z,
    reports (fst r) = [v]
    /\ v <> INIT_PENDING
    /\ writes_under_mutex false (fst r) = true
    /\ mutex_held_after false (fst r) = false
    /\ (v = 1 <-> is_Some (snd r))
    /\ (v <> 1 -> v < 0).

Lemma fail_attached_reports (before after : list action) (code : Z) :
  reports before = [] -> reports after = [] ->
  writes_under_mutex true before = true ->
  mutex_held_after true before = true ->
  writes_under_mutex true after = true ->
  mutex_held_after true after = true ->
  code < 0 ->
  reports_once (fail_attached before code after).
Proof.
  intros Hb Ha Hwb Hhb Hwa Hha Hneg. exists code.
  unfold fail_attached; cbn [fst snd].
  assert (Happ_r : forall t u, reports (t ++ u) = reports t ++ reports u).
  { induction t as [|[] t IH]; intros u; simpl; rewrite ?IH; reflexivity. }
  assert (Happ_w : forall t u h,
    writes_under_mutex h (t ++ u)
    = writes_under_mutex h t
      && writes_under_mutex (mutex_held_after h t) u).
  { induction t as [|[] t IH]; intros u h; simpl; rewrite ?IH;
      try reflexivity.
    destruct h; reflexivity. }
  assert (Happ_h : forall t u h,
    mutex_held_after h (t ++ u)
    = mutex_held_after (mutex_held_after h t) u).
  { induction t as [|[] t IH]; intros u h; simpl; rewrite ?IH;
      reflexivity. }
  split.
  { simpl. rewrite Happ_r, Hb. simpl. rewrite Happ_r, Ha. reflexivity. }
  split; [unfold INIT_PENDING; lia|].
  split.
  { simpl. rewrite Happ_w, Hwb, Hhb. simpl.
    rewrite Happ_w, Hwa, Hha. reflexivity. }
  split.
  { simpl. rewrite Happ_h, Hhb. simpl. rewrite Happ_h, Hha. reflexivity. }
  split.
  { split; [lia | intros [x Hx]; discriminate]. }
  intros _. exact Hneg.
Qed.

(** Whatever the set-up meets, [data_looper] reports once. *)
Lemma data_looper_init_reports (p : platform) (fd : Z) (e : init_env) :
  env_sets_errno e -> reports_once (data_looper_init p fd e).
Proof.
  intros (Hev & Hcr & Hcp & Hce & Hpi & Hkq).
  assert (Hok : forall t w,
    reports_once ([Lock; SaveEvfd w; SetDataInitDone 1; Unlock], Some t)).
  { intros t w. exists 1. cbn. repeat split; try discriminate; eauto.
    intros; lia. }
  unfold data_looper_init.
  destruct (attach_ok e); cbn [negb].
  2:{ exists (-240). cbn. repeat split; try discriminate; try lia.
      intros [x Hx]; discriminate. }
  destruct (class_found e); cbn [negb];
    [|apply fail_attached_reports; auto; lia].
  destruct (mid_found e); cbn [negb];
    [|apply fail_attached_reports; auto; lia].
  destruct (mide_found e); cbn [negb];
    [|apply fail_attached_reports; auto; lia].
  unfold sets_errno in *.
  destruct p.
  - destruct (Z.ltb_spec (sc_ret (sys_eventfd e)) 0);
      [apply fail_attached_reports; auto; lia|].
    destruct (Z.ltb_spec (sc_ret (sys_epoll_create e)) 0);
      [apply fail_attached_reports; auto; lia|].
    destruct (Z.ltb_spec (sc_ret (sys_epoll_ctl_port e)) 0);
      [apply fail_attached_reports; auto; lia|].
    destruct (Z.ltb_spec (sc_ret (sys_epoll_ctl_exit e)) 0);
      [apply fail_attached_reports; auto; lia|].
    apply Hok.
  - destruct (Z.ltb_spec (sc_ret (sys_pipe e)) 0);
      [apply fail_attached_reports; auto; lia|].
    destruct (Z.ltb_spec (sc_ret (sys_kqueue e)) 0);
      [apply fail_attached_reports; auto; lia|].
    apply Hok.
Qed.

End DataLooperInit.

(* ===================================================================== *)
(** ** The listener registry of [windows_serial.c] *)
(* ===================================================================== *)

Module WinListeners.

(** Event bits of [SetCommMask]/[GetCommMask], from [windows.h]. *)
Class CommConsts := {
  EV_RXCHAR : Z;
  EV_RXFLAG : Z;
  EV_CTS : Z;
  EV_DSR : Z;
  EV_RLSD : Z;
  EV_BREAK : Z;
  EV_ERR : Z;
  EV_RING : Z;
}.

(** The values of [winbase.h]. *)
Definition winbase_consts : CommConsts :=
  {| EV_RXCHAR := 0x0001; EV_RXFLAG := 0x0002; EV_CTS := 0x0008;
     EV_DSR := 0x0010; EV_RLSD := 0x0020; EV_BREAK := 0x0040;
     EV_ERR := 0x0080; EV_RING := 0x0100 |}.

Definition MAX_NUM_THREADS : Z := 1024.

(** The fields of [struct looper_thread_params] that [windows_serial.c]
    assigns ([jvm] and [mutex] are the same globals for every entry). *)
Record looper_thread_params := LooperThreadParams {
  hComm : Z;
  looper_ref : Z;
  data_enabled : Z;
  event_enabled : Z;
  thread_exit : Z;
  thread_handle : Z;
}.

(** An element of the zero-initialised global array. *)
Definition zero_params : looper_thread_params :=
  {| hComm := 0; looper_ref := 0; data_enabled := 0; event_enabled := 0;
     thread_exit := 0; thread_handle := 0 |}.

(** The globals [handle_looper_info] and [dtp_index], the critical
    section [csmutex], the event mask the driver keeps for each handle
    (what [GetCommMask] reads and [SetCommMask] writes; 0 when never
    set), and the threads started so far with the slot passed to each. *)
Record registry := Registry {
  handle_looper_info : list looper_thread_params;
  dtp_index : Z;
  csmutex_held : bool;
  comm_mask : gmap Z Z;
  started : list (Z * Z);
}.

Definition initial_registry : registry :=
  {| handle_looper_info := replicate (Z.to_nat MAX_NUM_THREADS) zero_params;
     dtp_index := 0; csmutex_held := false; comm_mask := ∅;
     started := [] |}.

(** What the environment answers during one call.  [thread_init_report]
    is the code with which the set-up of the started thread ends (1 for
    success, a negative code for a failure, as [data_init_done] on the
    Unix side); no statement of [windows_serial.c] reads it. *)
Record os_results := OsResults {
  set_mask_ok : bool;          (* SetCommMask returned non-zero *)
  global_ref : option Z;       (* NewGlobalRef, None for NULL *)
  stack_thread_handle : Z;     (* the uninitialised params.thread_handle *)
  new_thread : option Z;       (* _beginthreadex, None for 0 *)
  thread_init_report : Z;
}.

Definition with_report (os : os_results) (v : Z) : os_results :=
  {| set_mask_ok := set_mask_ok os; global_ref := global_ref os;
     stack_thread_handle := stack_thread_handle os;
     new_thread := new_thread os; thread_init_report := v |}.

(** The value a JNI function hands back; [NoReturnValue] when control
    reaches the closing brace without a [return]. *)
Inductive jint_result := Returned (v : Z) | NoReturnValue.

(** The scan [for(x=0; x<MAX_NUM_THREADS; x++) if(ptr->hComm == hComm)]. *)
Definition thread_exist (handle : Z) (info : list looper_thread_params)
  : bool :=
  existsb (fun e => hComm e =? handle) info.

(** The same scan when it sets [ptr->thread_exit = 1] on the first match
    and breaks. *)
Fixpoint request_exit (handle : Z) (info : list looper_thread_params)
  : list looper_thread_params :=
  match info with
  | [] => []
  | e :: rest =>
      if hComm e =? handle then
        {| hComm := hComm e; looper_ref := looper_ref e;
           data_enabled := data_enabled e; event_enabled := event_enabled e;
           thread_exit := 1; thread_handle := thread_handle e |} :: rest
      else e :: request_exit handle rest
  end.

(** Index of the first entry for [handle]. *)
Fixpoint first_slot (handle : Z) (info : list looper_thread_params)
  : option nat :=
  match info with
  | [] => None
  | e :: rest =>
      if hComm e =? handle then Some O
      else option_map S (first_slot handle rest)
  end.

Definition get_comm_mask (reg : registry) (handle : Z) : Z :=
  default 0 (comm_mask reg !! handle).

Definition set_comm_mask (reg : registry) (handle mask : Z) : registry :=
  {| handle_looper_info := handle_looper_info reg;
     dtp_index := dtp_index reg; csmutex_held := csmutex_held reg;
     comm_mask := <[handle := mask]> (comm_mask reg);
     started := started reg |}.

Definition set_info (reg : registry) (info : list looper_thread_params)
  : registry :=
  {| handle_looper_info := info;
     dtp_index := dtp_index reg; csmutex_held := csmutex_held reg;
     comm_mask := comm_mask reg; started := started reg |}.

Definition enter_critical_section (reg : registry) : registry :=
  {| handle_looper_info := handle_looper_info reg;
     dtp_index := dtp_index reg; csmutex_held := true;
     comm_mask := comm_mask reg; started := started reg |}.

Section Registry.
Context `{CommConsts}.

(** [EV_BREAK | EV_CTS | EV_DSR | EV_ERR | EV_RING | EV_RLSD | EV_RXFLAG]
    or-ed onto [mask], in the order of the source. *)
Definition or_event_bits (mask : Z) : Z :=
  Z.lor (Z.lor (Z.lor (Z.lor (Z.lor (Z.lor (Z.lor mask EV_BREAK) EV_CTS)
    EV_DSR) EV_ERR) EV_RING) EV_RLSD) EV_RXFLAG.

(** [setupLooperThread].  (A store past the last slot of
    [handle_looper_info] leaves the list as it is.) *)
Definition setupLooperThread (reg : registry) (handle looper : Z)
  (data_en event_en : Z) (os : os_results) : registry * jint_result :=
  let reg := enter_critical_section reg in
  match global_ref os with
  | None => (reg, Returned (-240))
  | Some ref =>
      let params :=
        {| hComm := handle; looper_ref := ref; data_enabled := data_en;
           event_enabled := event_en; thread_exit := 0;
           thread_handle := stack_thread_handle os |} in
      let slot := Z.to_nat (dtp_index reg) in
      let reg := set_info reg (<[slot := params]> (handle_looper_info reg)) in
      match new_thread os with
      | None => (reg, Returned (-240))
      | Some th =>
          let params' :=
            {| hComm := handle; looper_ref := ref; data_enabled := data_en;
               event_enabled := event_en; thread_exit := 0;
               thread_handle := th |} in
          ({| handle_looper_info :=
                <[slot := params']> (handle_looper_info reg);
              dtp_index := dtp_index reg + 1;
              csmutex_held := false;
              comm_mask := comm_mask reg;
              started := started reg ++ [(th, dtp_index reg)] |},
           Returned 0)
      end
  end.

(** [setUpDataLooperThread] *)
Definition setUpDataLooperThread (reg : registry) (handle looper : Z)
  (os : os_results) : registry * jint_result :=
  if thread_exist handle (handle_looper_info reg) then
    let event_mask := get_comm_mask reg handle in
    let updated_mask := Z.lor event_mask EV_RXCHAR in
    if set_mask_ok os
    then (set_comm_mask reg handle updated_mask, NoReturnValue)
    else (reg, Returned (-240))
  else setupLooperThread reg handle looper 1 0 os.

(** [setUpEventLooperThread] *)
Definition setUpEventLooperThread (reg : registry) (handle looper : Z)
  (os : os_results) : registry * jint_result :=
  if thread_exist handle (handle_looper_info reg) then
    let event_mask := get_comm_mask reg handle in
    let updated_mask := or_event_bits event_mask in
    if set_mask_ok os
    then (set_comm_mask reg handle updated_mask, NoReturnValue)
    else (reg, Returned (-240))
  else setupLooperThread reg handle looper 0 1 os.

(** The [else] branch the two destroy functions share: flag the thread
    of the handle for exit, then [SetCommMask(hComm, EV_BREAK)], whose
    result is not looked at. *)
Definition exit_and_wake (reg : registry) (handle : Z) (os : os_results)
  : registry * jint_result :=
  let reg := set_info reg (request_exit handle (handle_looper_info reg)) in
  ((if set_mask_ok os then set_comm_mask reg handle EV_BREAK else reg),
   Returned 0).

(** [destroyDataLooperThread] *)
Definition destroyDataLooperThread (reg : registry) (handle : Z)
  (os : os_results) : registry * jint_result :=
  let a := 0 in
  let b := Z.land a EV_CTS in
  let event_mask := get_comm_mask reg handle in
  if Z.land b event_mask =? 1 then
    let event_mask := or_event_bits 0 in
    if set_mask_ok os
    then (set_comm_mask reg handle event_mask, Returned 0)
    else (reg, Returned (-240))
  else exit_and_wake reg handle os.

(** [destroyEventLooperThread] *)
Definition destroyEventLooperThread (reg : registry) (handle : Z)
  (os : os_results) : registry * jint_result :=
  let a := 0 in
  let b := Z.land a EV_RXCHAR in
  let event_mask := get_comm_mask reg handle in
  if Z.land b event_mask =? 1 then
    let event_mask := Z.lor 0 EV_RXCHAR in
    if set_mask_ok os
    then (set_comm_mask reg handle event_mask, Returned 0)
    else (reg, Returned (-240))
  else exit_and_wake reg handle os.

(** The registering call hands a failure reported by the started thread
    back to its caller: the statement of the specification, for a call
    that starts a thread. *)
Definition register_returns_thread_report : Prop :=
  forall (reg : registry) (handle looper : Z) (os : os_results),
    thread_exist handle (handle_looper_info reg) = false ->
    is_Some (global_ref os) ->
    is_Some (new_thread os) ->
    thread_init_report os < 0 ->
    snd (setUpDataLooperThread reg handle looper os)
    = Returned (thread_init_report os).

(** The event role of the handle is registered: the mask holds every
    event bit [setUpEventLooperThread] asks for. *)
Definition event_role_active (mask : Z) : Prop :=
  Z.land mask (or_event_bits 0) = or_event_bits 0.

(** The data role of the handle is registered. *)
Definition data_role_active (mask : Z) : Prop :=
  Z.land mask EV_RXCHAR = EV_RXCHAR.

End Registry.

Section Facts.
Context `{CommConsts}.

Lemma request_exit_first_slot (handle : Z)
  (info : list looper_thread_params) :
  forall (k : nat) (e : looper_thread_params),
    first_slot handle info = Some k ->
    info !! k = Some e ->
    exists e',
      request_exit handle info !! k = Some e'
      /\ thread_exit e' = 1 /\ hComm e' = handle
      /\ looper_ref e' = looper_ref e /\ thread_handle e' = thread_handle e.
Proof.
  induction info as [|x rest IH]; intros k e Hk He; [discriminate|].
  simpl in Hk |- *.
  destruct (Z.eqb_spec (hComm x) handle) as [Heq|Hne].
  - injection Hk as <-. injection He as <-.
    eexists. split; [reflexivity|]. simpl. auto.
  - destruct (first_slot handle rest) as [j|] eqn:Hj; [|discriminate].
    injection Hk as <-. simpl in He.
    destruct (IH j e eq_refl He) as (e' & Hl & Hrest).
    exists e'. split; [exact Hl | exact Hrest].
Qed.

(** [b] is [0 & EV_...], so the test [(b & event_mask) == 1] fails
    whatever the mask is. *)
Lemma destroyDataLooperThread_always_exits (reg : registry) (handle : Z)
  (os : os_results) :
  destroyDataLooperThread reg handle os = exit_and_wake reg handle os.
Proof. reflexivity. Qed.

Lemma destroyEventLooperThread_always_exits (reg : registry) (handle : Z)
  (os : os_results) :
  destroyEventLooperThread reg handle os = exit_and_wake reg handle os.
Proof. reflexivity. Qed.

Lemma exit_and_wake_effect (reg : registry) (handle : Z) (os : os_results)
  (k : nat) (e : looper_thread_params) :
  first_slot handle (handle_looper_info reg) = Some k ->
  handle_looper_info reg !! k = Some e ->
  set_mask_ok os = true ->
  snd (exit_and_wake reg handle os) = Returned 0
  /\ (exists e',
         handle_looper_info (fst (exit_and_wake reg handle os)) !! k
         = Some e'
         /\ thread_exit e' = 1 /\ hComm e' = handle)
  /\ comm_mask (fst (exit_and_wake reg handle os)) !! handle
     = Some EV_BREAK.
Proof.
  intros Hk He Hok. unfold exit_and_wake. rewrite Hok. cbn [fst snd].
  split; [reflexivity|]. split.
  - destruct (request_exit_first_slot handle _ k e Hk He)
      as (e' & Hl & Hx & Hh & _).
    exists e'. split; [exact Hl|]. split; assumption.
  - cbn [set_comm_mask comm_mask]. apply lookup_insert_eq.
Qed.

End Facts.

(** C2, the statement of the specification, fails: on an empty registry,
    with the global reference and the thread created, a thread whose
    set-up ends with the failure code -240 leaves the registering call
    returning 0. *)
Lemma register_ignores_thread_report :
  ~ register_returns_thread_report (H := winbase_consts).
Proof.
  intros Hclaim.
  pose (os := {| set_mask_ok := true; global_ref := Some 11;
                 stack_thread_handle := 0; new_thread := Some 12;
                 thread_init_report := -240 |}).
  assert (Hno : thread_exist 7 (handle_looper_info initial_registry) = false)
    by (vm_compute; reflexivity).
  specialize (Hclaim initial_registry 7 1 os Hno
                (mk_is_Some _ _ eq_refl) (mk_is_Some _ _ eq_refl)
                ltac:(simpl; lia)).
  unfold setUpDataLooperThread in Hclaim. rewrite Hno in Hclaim.
  discriminate Hclaim.
Qed.

(** C2, as the code has it: when no thread exists for the handle, the
    registering call is [setupLooperThread]; it stores the registration
    in slot [dtp_index], starts the listener thread and returns 0 as soon
    as the thread is created, and -240 when the global reference or the
    thread cannot be created, in both cases without waiting for, or
    reading, what the set-up of the started thread reports.  On the Unix
    side the started thread ([data_looper]) leaves the pending state of
    its init-done flag exactly once, while it holds the shared mutex:
    for 1 when it enters its loop, for a negative code otherwise. *)
Theorem register_returns_once_thread_created `{CommConsts}
  (reg : registry) (handle looper : Z) (os : os_results)
  (p : platform) (fd : Z) (e : DataLooperInit.init_env) :
  thread_exist handle (handle_looper_info reg) = false ->
  0 <= dtp_index reg < MAX_NUM_THREADS ->
  length (handle_looper_info reg) = Z.to_nat MAX_NUM_THREADS ->
  DataLooperInit.env_sets_errno e ->
  (setUpDataLooperThread reg handle looper os
   = setupLooperThread reg handle looper 1 0 os
   /\ setUpEventLooperThread reg handle looper os
      = setupLooperThread reg handle looper 0 1 os)
  /\ (forall (data_en event_en ref th : Z),
        global_ref os = Some ref ->
        new_thread os = Some th ->
        let r := setupLooperThread reg handle looper data_en event_en os in
        snd r = Returned 0
        /\ handle_looper_info (fst r) !! Z.to_nat (dtp_index reg)
           = Some {| hComm := handle; looper_ref := ref;
                     data_enabled := data_en; event_enabled := event_en;
                     thread_exit := 0; thread_handle := th |}
        /\ dtp_index (fst r) = dtp_index reg + 1
        /\ started (fst r) = started reg ++ [(th, dtp_index reg)]
        /\ csmutex_held (fst r) = false)
  /\ (forall data_en event_en : Z,
        global_ref os = None \/ new_thread os = None ->
        snd (setupLooperThread reg handle looper data_en event_en os)
        = Returned (-240))
  /\ (forall data_en event_en v : Z,
        setupLooperThread reg handle looper data_en event_en
          (with_report os v)
        = setupLooperThread reg handle looper data_en event_en os)
  /\ DataLooperInit.reports_once (DataLooperInit.data_looper_init p fd e).
Proof.
  intros Hno Hidx Hlen Henv.
  split.
  { unfold setUpDataLooperThread, setUpEventLooperThread.
    rewrite Hno. split; reflexivity. }
  split.
  { intros data_en event_en ref th Href Hth r. subst r.
    unfold setupLooperThread. rewrite Href, Hth. cbn.
    split; [reflexivity|]. split; [|repeat split].
    rewrite list_lookup_insert_eq; [reflexivity|].
    rewrite length_insert, Hlen. unfold MAX_NUM_THREADS in *. lia. }
  split.
  { intros data_en event_en Hfail. unfold setupLooperThread.
    destruct (global_ref os) as [ref|]; [|reflexivity].
    destruct Hfail as [Hf|Hf]; [discriminate|]. rewrite Hf. reflexivity. }
  split; [reflexivity|].
  apply DataLooperInit.data_looper_init_reports. exact Henv.
Qed.

Lemma register_returns_once_thread_created_witness :
  let os := {| set_mask_ok := true; global_ref := Some 11;
               stack_thread_handle := 0; new_thread := Some 12;
               thread_init_report := -240 |} in
  let ok := {| DataLooperInit.sc_ret := 3; DataLooperInit.sc_errno := 0 |} in
  let e :=
    {| DataLooperInit.attach_ok := true; DataLooperInit.class_found := true;
       DataLooperInit.mid_found := true; DataLooperInit.mide_found := true;
       DataLooperInit.sys_eventfd := ok;
       DataLooperInit.sys_epoll_create := ok;
       DataLooperInit.sys_epoll_ctl_port := ok;
       DataLooperInit.sys_epoll_ctl_exit := ok;
       DataLooperInit.sys_pipe := ok;
       DataLooperInit.pipe_read_end := 4;
       DataLooperInit.pipe_write_end := 5;
       DataLooperInit.sys_kqueue := ok |} in
  thread_exist 7 (handle_looper_info initial_registry) = false
  /\ 0 <= dtp_index initial_registry < MAX_NUM_THREADS
  /\ length (handle_looper_info initial_registry) = Z.to_nat MAX_NUM_THREADS
  /\ DataLooperInit.env_sets_errno e
  /\ snd (setUpDataLooperThread (H := winbase_consts) initial_registry 7 1 os)
     = Returned 0.
Proof.
  intros os ok e.
  assert (Hno : thread_exist 7 (handle_looper_info initial_registry) = false)
    by (vm_compute; reflexivity).
  assert (Hidx : 0 <= dtp_index initial_registry < MAX_NUM_THREADS)
    by (simpl; unfold MAX_NUM_THREADS; lia).
  assert (Hlen : length (handle_looper_info initial_registry)
                 = Z.to_nat MAX_NUM_THREADS)
    by (vm_compute; reflexivity).
  assert (Henv : DataLooperInit.env_sets_errno e).
  { unfold DataLooperInit.env_sets_errno, DataLooperInit.sets_errno; simpl.
    lia. }
  split; [exact Hno|]. split; [exact Hidx|]. split; [exact Hlen|].
  split; [exact Henv|].
  destruct (register_returns_once_thread_created (H := winbase_consts)
              initial_registry 7 1 os Linux 7 e Hno Hidx Hlen Henv)
    as ((Hdata & _) & Hret & _).
  rewrite Hdata.
  exact (proj1 (Hret 1 0 11 12 eq_refl eq_refl)).
Defined.

(** C3 (the code departs from it): unregistering one role requests the
    exit of the thread even when the other role is still registered.
    With both roles in the wait mask of the handle and its thread
    running, [destroyDataLooperThread] and [destroyEventLooperThread]
    both return 0 after setting the [thread_exit] flag of the handle's
    entry and replacing the wait mask by [EV_BREAK]: the branch that
    would narrow the mask to the remaining role is never taken, for its
    test is [(b & event_mask) == 1] with [b = 0 & EV_...]. *)
Theorem unregister_requests_exit_with_other_role_active `{CommConsts}
  (reg : registry) (handle : Z) (os : os_results) (mask : Z) (k : nat)
  (e : looper_thread_params) :
  comm_mask reg !! handle = Some mask ->
  data_role_active mask ->
  event_role_active mask ->
  first_slot handle (handle_looper_info reg) = Some k ->
  handle_looper_info reg !! k = Some e ->
  thread_exit e = 0 ->
  set_mask_ok os = true ->
  (snd (destroyDataLooperThread reg handle os) = Returned 0
   /\ (exists e',
          handle_looper_info (fst (destroyDataLooperThread reg handle os))
            !! k = Some e'
          /\ thread_exit e' = 1 /\ hComm e' = handle)
   /\ comm_mask (fst (destroyDataLooperThread reg handle os)) !! handle
      = Some EV_BREAK)
  /\ (snd (destroyEventLooperThread reg handle os) = Returned 0
      /\ (exists e',
             handle_looper_info (fst (destroyEventLooperThread reg handle os))
               !! k = Some e'
             /\ thread_exit e' = 1 /\ hComm e' = handle)
      /\ comm_mask (fst (destroyEventLooperThread reg handle os)) !! handle
         = Some EV_BREAK).
Proof.
  intros _ _ _ Hk He _ Hok.
  pose proof (exit_and_wake_effect reg handle os k e Hk He Hok) as Heff.
  split.
  - rewrite (destroyDataLooperThread_always_exits reg handle os).
    exact Heff.
  - rewrite (destroyEventLooperThread_always_exits reg handle os).
    exact Heff.
Qed.

Lemma unregister_requests_exit_with_other_role_active_witness :
  let os := {| set_mask_ok := true; global_ref := Some 11;
               stack_thread_handle := 0; new_thread := Some 12;
               thread_init_report := 1 |} in
  let reg1 :=
    fst (setUpDataLooperThread (H := winbase_consts) initial_registry 7 1 os)
  in
  let reg2 :=
    fst (setUpEventLooperThread (H := winbase_consts)
           (set_comm_mask reg1 7 (@EV_RXCHAR winbase_consts)) 7 1 os) in
  let e := {| hComm := 7; looper_ref := 11; data_enabled := 1;
              event_enabled := 0; thread_exit := 0; thread_handle := 12 |} in
  comm_mask reg2 !! 7 = Some 0x1fb
  /\ data_role_active (H := winbase_consts) 0x1fb
  /\ event_role_active (H := winbase_consts) 0x1fb
  /\ first_slot 7 (handle_looper_info reg2) = Some 0%nat
  /\ handle_looper_info reg2 !! 0%nat = Some e
  /\ (exists e',
         handle_looper_info
           (fst (destroyDataLooperThread (H := winbase_consts) reg2 7 os))
           !! 0%nat = Some e'
         /\ thread_exit e' = 1 /\ hComm e' = 7).
Proof.
  intros os reg1 reg2 e.
  assert (Hm : comm_mask reg2 !! 7 = Some 0x1fb) by (vm_compute; reflexivity).
  assert (Hd : data_role_active (H := winbase_consts) 0x1fb)
    by (vm_compute; reflexivity).
  assert (Hev : event_role_active (H := winbase_consts) 0x1fb)
    by (vm_compute; reflexivity).
  assert (Hk : first_slot 7 (handle_looper_info reg2) = Some 0%nat)
    by (vm_compute; reflexivity).
  assert (He : handle_looper_info reg2 !! 0%nat = Some e)
    by (vm_compute; reflexivity).
  split; [exact Hm|]. split; [exact Hd|]. split; [exact Hev|].
  split; [exact Hk|]. split; [exact He|].
  destruct (unregister_requests_exit_with_other_role_active
              (H := winbase_consts) reg2 7 os 0x1fb 0%nat e
              Hm Hd Hev Hk He eq_refl eq_refl) as ((_ & Hx & _) & _).
  exact Hx.
Defined.

End WinListeners.

(* ===================================================================== *)
(** ** Further behaviour of the data listener loop *)
(* ===================================================================== *)

Module DataLooperFacts.
Import DataLooper.

(** The counter of link errors stays below its threshold. *)
Definition error_count_bounded (st : locals) : Prop :=
  0 <= errorCount st < 100.

(** A wake-up on which the thread finds its exit flag set. *)
Definition exit_wakeup `{SysConsts} (fds : thread_fds) (w : wait_result)
  : bool :=
  (0 <? w_ret w) && exit_requested fds w.

(** A [read] that was interrupted before it transferred anything. *)
Definition interrupted `{SysConsts} (r : read_result) : Prop :=
  rd_ret r < 0 /\ rd_errno r = EINTR.

(** The arrays handed to [insertInDataQueue] by a list of calls. *)
Definition delivered_arrays (calls : list sink_call) : list (list jbyte) :=
  flat_map (fun c => match c with
                     | insertInDataQueue d => [d]
                     | insertInDataErrorQueue _ => []
                     end) calls.

(** The locals hold arrays of the declared sizes and a carry index that
    is a chunk length. *)
Definition arrays_sized (st : locals) : Prop :=
  length (buffer st) = Z.to_nat BUFFER_SIZE
  /\ length (final_buf st) = Z.to_nat FINAL_BUF_SIZE
  /\ 0 <= index st <= BUFFER_SIZE.

(** An array of 1 to 2048 bytes. *)
Definition array_in_range (d : list jbyte) : Prop :=
  (1 <= length d <= 2048)%nat.

Section Facts.
Context `{SysConsts}.

Lemma set_buffer_same (st : locals) : set_buffer st (buffer st) = st.
Proof. destruct st; reflexivity. Qed.

Lemma read_into_nothing (buf : list jbyte) (r : read_result) :
  rd_ret r <= 0 -> read_into buf r = buf.
Proof.
  intros Hr. unfold read_into.
  destruct (Z.ltb_spec 0 (rd_ret r)); [lia | reflexivity].
Qed.

Lemma read_loop_skips_interrupted (pre : list read_result) :
  forall (st : locals) (rest : list read_result),
    Forall interrupted pre ->
    read_loop st (pre ++ rest) = read_loop st rest.
Proof.
  induction pre as [|q pre IH]; intros st rest Hpre; [reflexivity|].
  inversion Hpre as [|? ? [Hneg Herr] Hpre']; subst.
  change ((q :: pre) ++ rest) with (q :: (pre ++ rest)).
  cbn [read_loop].
  rewrite (read_into_nothing (buffer st) q) by lia.
  rewrite set_buffer_same, Herr, Z.eqb_refl.
  replace (0 <? rd_ret q) with false by (symmetry; apply Z.ltb_ge; lia).
  replace (rd_ret q <? 0) with true by (symmetry; apply Z.ltb_lt; lia).
  cbn [andb]. apply IH. exact Hpre'.
Qed.

Lemma read_loop_errorCount (reads : list read_result) :
  forall st : locals,
    errorCount (loop_locals (read_loop st reads)) = errorCount st.
Proof.
  assert (Hcopy : forall st ret,
             errorCount (copy_from_index st ret) = errorCount st).
  { intros st ret. unfold copy_from_index.
    destruct (copy_loop _ _ _ _ _); reflexivity. }
  induction reads as [|r rest IH]; intros st; simpl; [reflexivity|].
  destruct ((0 <? rd_ret r) && (rd_errno r =? 0)).
  { destruct (partialData st =? 1); simpl; rewrite ?Hcopy; reflexivity. }
  destruct ((0 <? rd_ret r) && (rd_errno r =? EINTR)).
  { rewrite IH. simpl. rewrite Hcopy. reflexivity. }
  destruct (rd_ret r <? 0).
  { destruct (rd_errno r =? EINTR); [rewrite IH|]; reflexivity. }
  destruct (rd_ret r =? 0); [|rewrite IH]; reflexivity.
Qed.

Lemma iteration_error_count_bounded (p : platform) (fds : thread_fds)
  (st : locals) (w : wait_result) (reads : list read_result) :
  error_count_bounded st ->
  error_count_bounded (final_locals (snd (iteration p fds st w reads))).
Proof.
  unfold error_count_bounded. intros Hst. unfold iteration.
  destruct (w_ret w <=? 0); [exact Hst|].
  destruct (exit_requested fds w); [exact Hst|].
  destruct (readable p fds w).
  - pose proof (read_loop_errorCount reads st) as Hloop.
    destruct (read_loop st reads) as [st' calls [d|] | st'];
      simpl in Hloop |- *; rewrite Hloop; exact Hst.
  - destruct (error_flagged p w); [|exact Hst].
    destruct (Z.eqb_spec (errorCount st + 1) 100); simpl; lia.
Qed.

(** The loop over [pre ++ post], when the passes of [pre] leave the thread
    in its loop. *)
Lemma data_looper_loop_app (p : platform) (fds : thread_fds)
  (pre post : list (wait_result * list read_result)) :
  forall (st st1 : locals),
    snd (data_looper_loop p fds st pre) = Alive st1 ->
    data_looper_loop p fds st (pre ++ post)
    = (fst (data_looper_loop p fds st pre)
         ++ fst (data_looper_loop p fds st1 post),
       snd (data_looper_loop p fds st1 post)).
Proof.
  induction pre as [|[w reads] pre IH]; intros st st1 Hpre.
  - simpl in Hpre. injection Hpre as ->. simpl.
    destruct (data_looper_loop p fds st1 post); reflexivity.
  - simpl in Hpre |- *.
    destruct (iteration p fds st w reads) as [calls [st2|st2|st2]];
      try discriminate Hpre.
    destruct (data_looper_loop p fds st2 pre) as [trace s] eqn:Hrun.
    simpl in Hpre. subst s.
    rewrite (IH st2 st1) by (rewrite Hrun; reflexivity).
    rewrite Hrun. reflexivity.
Qed.

End Facts.

(** X1: with no partial read pending, a wake-up whose first [read]
    succeeds cleanly hands exactly the bytes of that read to
    [insertInDataQueue], in one call, performs no further [read], and
    leaves the carry index, the partial-data flag, the error counter and
    the accumulator as they were. *)
Theorem clean_read_delivers_fresh_bytes `{SysConsts} (p : platform)
  (fds : thread_fds) (w : wait_result) (st : locals) (r : read_result)
  (rest : list read_result) :
  data_ready p fds w = true ->
  partialData st <> 1 ->
  0 < rd_ret r ->
  rd_errno r = 0 ->
  Z.of_nat (length (rd_bytes r)) = rd_ret r ->
  iteration p fds st w (r :: rest)
  = ([insertInDataQueue (rd_bytes r)],
     Alive (set_buffer st (read_into (buffer st) r))).
Proof.
  intros Hw Hp Hret Herr Hlen.
  rewrite iteration_data_ready by exact Hw.
  cbn [read_loop]. rewrite Herr.
  replace (0 <? rd_ret r) with true by (symmetry; apply Z.ltb_lt; lia).
  cbn [andb Z.eqb partialData set_buffer buffer].
  replace (partialData st =? 1) with false
    by (symmetry; apply Z.eqb_neq; exact Hp).
  cbn [app]. f_equal. f_equal. f_equal.
  unfold read_into.
  replace (0 <? rd_ret r) with true by (symmetry; apply Z.ltb_lt; lia).
  apply take_app_length'. lia.
Qed.

Lemma clean_read_delivers_fresh_bytes_witness :
  let fds := {| fd := 7; wake_fd := 9 |} in
  let w := {| w_ret := 1; w_ident0 := 7; w_flags0 := 1; w_data0 := 0;
              w_ident1 := 0; w_thread_exit := 0 |} in
  let r := {| rd_ret := 3; rd_errno := 0; rd_bytes := [11; 12; 13] |} in
  data_ready (H := linux_consts) Linux fds w = true
  /\ fst (iteration (H := linux_consts) Linux fds
            (initial_locals (replicate 1024 0) (replicate 3072 0)) w [r])
     = [insertInDataQueue [11; 12; 13]].
Proof.
  intros fds w r.
  assert (Hw : data_ready (H := linux_consts) Linux fds w = true)
    by reflexivity.
  split; [exact Hw|].
  rewrite (clean_read_delivers_fresh_bytes (H := linux_consts) Linux fds w
             (initial_locals (replicate 1024 0) (replicate 3072 0)) r []
             Hw ltac:(simpl; lia) ltac:(simpl; lia) eq_refl eq_refl).
  reflexivity.
Defined.

(** X2: a [read] that fails is reported once and changes nothing.  After
    any number of [read]s interrupted before transferring anything (which
    are simply retried), a [read] that returns a negative value with an
    [errno] other than [EINTR] gives exactly one call of
    [insertInDataErrorQueue], with that [errno]; one that returns 0 gives
    no call.  In both cases the pass ends there, the thread stays in
    its loop and its locals are unchanged. *)
Theorem failed_read_reported_once `{SysConsts} (p : platform)
  (fds : thread_fds) (w : wait_result) (st : locals)
  (pre : list read_result) (r : read_result) (rest : list read_result) :
  data_ready p fds w = true ->
  Forall interrupted pre ->
  rd_ret r <= 0 ->
  (rd_ret r < 0 -> rd_errno r <> EINTR) ->
  iteration p fds st w (pre ++ r :: rest)
  = ((if rd_ret r <? 0 then [insertInDataErrorQueue (rd_errno r)] else []),
     Alive st).
Proof.
  intros Hw Hpre Hret Herr.
  rewrite iteration_data_ready by exact Hw.
  rewrite read_loop_skips_interrupted by exact Hpre.
  cbn [read_loop].
  rewrite (read_into_nothing (buffer st) r) by exact Hret.
  rewrite set_buffer_same.
  replace (0 <? rd_ret r) with false by (symmetry; apply Z.ltb_ge; lia).
  cbn [andb].
  destruct (Z.ltb_spec (rd_ret r) 0) as [Hneg|Hz].
  - replace (rd_errno r =? EINTR) with false
      by (symmetry; apply Z.eqb_neq; auto).
    reflexivity.
  - replace (rd_ret r =? 0) with true by (symmetry; apply Z.eqb_eq; lia).
    reflexivity.
Qed.

Lemma failed_read_reported_once_witness :
  let fds := {| fd := 7; wake_fd := 9 |} in
  let w := {| w_ret := 1; w_ident0 := 7; w_flags0 := 1; w_data0 := 0;
              w_ident1 := 0; w_thread_exit := 0 |} in
  let eintr := {| rd_ret := -1; rd_errno := 4; rd_bytes := [] |} in
  let eio := {| rd_ret := -1; rd_errno := 5; rd_bytes := [] |} in
  data_ready (H := linux_consts) Linux fds w = true
  /\ Forall (interrupted (H := linux_consts)) [eintr; eintr]
  /\ fst (iteration (H := linux_consts) Linux fds (initial_locals [] []) w
            ([eintr; eintr] ++ [eio]))
     = [insertInDataErrorQueue 5].
Proof.
  intros fds w eintr eio.
  assert (Hw : data_ready (H := linux_consts) Linux fds w = true)
    by reflexivity.
  assert (Hpre : Forall (interrupted (H := linux_consts)) [eintr; eintr]).
  { repeat constructor; simpl; lia. }
  split; [exact Hw|]. split; [exact Hpre|].
  rewrite (failed_read_reported_once (H := linux_consts) Linux fds w
             (initial_locals [] []) [eintr; eintr] eio [] Hw Hpre
             ltac:(simpl; lia) ltac:(simpl; lia)).
  reflexivity.
Defined.

(** X3: once a wake-up finds the exit flag set, the thread ends without
    calling the looper object, and whatever wake-ups would follow are
    never served: the calls of the whole run are those made before the
    exit request. *)
Theorem exit_request_ends_loop `{SysConsts} (p : platform)
  (fds : thread_fds) (st st1 : locals)
  (pre post : list (wait_result * list read_result))
  (w : wait_result) (reads : list read_result) :
  snd (data_looper_loop p fds st pre) = Alive st1 ->
  exit_wakeup fds w = true ->
  data_looper_loop p fds st (pre ++ (w, reads) :: post)
  = (fst (data_looper_loop p fds st pre) ++ [[]], Terminated st1).
Proof.
  intros Hpre Hw.
  apply andb_prop in Hw as [Hret Hexit]. apply Z.ltb_lt in Hret.
  rewrite (data_looper_loop_app p fds pre _ st st1 Hpre).
  cbn [data_looper_loop]. unfold iteration.
  replace (w_ret w <=? 0) with false by (symmetry; apply Z.leb_gt; lia).
  rewrite Hexit. reflexivity.
Qed.

Lemma exit_request_ends_loop_witness :
  let fds := {| fd := 7; wake_fd := 9 |} in
  let wdata := {| w_ret := 1; w_ident0 := 7; w_flags0 := 1; w_data0 := 0;
                  w_ident1 := 0; w_thread_exit := 0 |} in
  let wexit := {| w_ret := 1; w_ident0 := 9; w_flags0 := 1; w_data0 := 0;
                  w_ident1 := 0; w_thread_exit := 1 |} in
  let r := {| rd_ret := 2; rd_errno := 0; rd_bytes := [1; 2] |} in
  exit_wakeup (H := linux_consts) fds wexit = true
  /\ fst (data_looper_loop (H := linux_consts) Linux fds
            (initial_locals [] [])
            ([(wdata, [r])] ++ (wexit, []) :: [(wdata, [r])]))
     = [[insertInDataQueue [1; 2]]; []].
Proof.
  intros fds wdata wexit r.
  assert (Hw : exit_wakeup (H := linux_consts) fds wexit = true)
    by reflexivity.
  split; [exact Hw|].
  rewrite (exit_request_ends_loop (H := linux_consts) Linux fds
             (initial_locals [] []) _ [(wdata, [r])] [(wdata, [r])]
             wexit [] eq_refl Hw).
  reflexivity.
Defined.

(** X4: the counter of link errors never leaves the range 0..99, whatever
    the thread is woken with and whatever [read] returns: it is
    incremented only in the error branch and reset when it reaches 100. *)
Theorem error_counter_stays_below_threshold `{SysConsts} (p : platform)
  (fds : thread_fds) (buffer0 final_buf0 : list jbyte)
  (inputs : list (wait_result * list read_result)) :
  error_count_bounded
    (final_locals
       (snd (data_looper_loop p fds (initial_locals buffer0 final_buf0)
               inputs))).
Proof.
  assert (Hgen : forall st,
    error_count_bounded st ->
    error_count_bounded
      (final_locals (snd (data_looper_loop p fds st inputs)))).
  { induction inputs as [|[w reads] rest IH]; intros st Hst; simpl;
      [exact Hst|].
    pose proof (iteration_error_count_bounded p fds st w reads Hst) as Hit.
    destruct (iteration p fds st w reads) as [calls [st'|st'|st']];
      simpl in Hit; try exact Hit.
    specialize (IH st' Hit).
    destruct (data_looper_loop p fds st' rest). exact IH. }
  apply Hgen. unfold error_count_bounded; simpl. lia.
Qed.

Section Deliveries.
Context `{SysConsts}.

Lemma copy_loop_length (n : nat) :
  forall (i : Z) (buf fb : list jbyte) (log : list Z),
    length (fst (copy_loop n i buf fb log)) = length fb.
Proof.
  induction n as [|n IH]; intros i buf fb log; simpl; [reflexivity|].
  rewrite IH. apply length_insert.
Qed.

Lemma copy_from_index_sized (st : locals) (ret : Z) :
  arrays_sized st -> arrays_sized (copy_from_index st ret).
Proof.
  intros (Hb & Hf & Hi). unfold arrays_sized, copy_from_index.
  pose proof (copy_loop_length (Z.to_nat (ret - index st)) (index st)
                (buffer st) (final_buf st) (stores st)) as Hlen.
  destruct (copy_loop _ _ _ _ _) as [fb log]. simpl in Hlen |- *.
  rewrite Hlen. auto.
Qed.

Lemma read_into_sized (st : locals) (r : read_result) :
  arrays_sized st -> read_within_chunk r ->
  arrays_sized (set_buffer st (read_into (buffer st) r)).
Proof.
  intros (Hb & Hf & Hi) [Hret Hlen]. unfold arrays_sized; simpl.
  split; [|auto]. unfold read_into.
  destruct (Z.ltb_spec 0 (rd_ret r)) as [Hpos|Hle]; [|exact Hb].
  specialize (Hlen Hpos).
  rewrite length_app, length_drop, Hb.
  unfold BUFFER_SIZE in *. lia.
Qed.

Lemma read_loop_deliveries (reads : list read_result) :
  forall st : locals,
    arrays_sized st ->
    Forall read_within_chunk reads ->
    arrays_sized (loop_locals (read_loop st reads))
    /\ match read_loop st reads with
       | LoopLeft _ calls (Some d) =>
           array_in_range d /\ delivered_arrays calls = []
       | LoopLeft _ calls None => delivered_arrays calls = []
       | LoopSpinning _ => True
       end.
Proof.
  induction reads as [|r rest IH]; intros st Hst Hreads.
  - simpl. auto.
  - inversion Hreads as [|? ? Hr Hrest]; subst.
    pose proof (read_into_sized st r Hst Hr) as Hst1.
    destruct Hr as [Hret Hlen].
    cbn [read_loop].
    set (st1 := set_buffer st (read_into (buffer st) r)) in *.
    destruct ((0 <? rd_ret r) && (rd_errno r =? 0)) eqn:Hok.
    { apply andb_prop in Hok as [Hpos _]. apply Z.ltb_lt in Hpos.
      destruct (partialData st1 =? 1).
      - pose proof (copy_from_index_sized st1 (rd_ret r) Hst1) as Hst2.
        split; [exact Hst2|]. split; [|reflexivity].
        destruct Hst2 as (_ & Hf & Hi). unfold array_in_range.
        rewrite length_take, Hf.
        unfold FINAL_BUF_SIZE, BUFFER_SIZE in *. lia.
      - split; [exact Hst1|]. split; [|reflexivity].
        destruct Hst1 as (Hb & _). unfold array_in_range.
        rewrite length_take, Hb. unfold BUFFER_SIZE in *. lia. }
    destruct ((0 <? rd_ret r) && (rd_errno r =? EINTR)) eqn:Hpart.
    { apply andb_prop in Hpart as [Hpos _]. apply Z.ltb_lt in Hpos.
      apply IH; [|exact Hrest].
      destruct (copy_from_index_sized st1 (rd_ret r) Hst1) as (Hb & Hf & _).
      repeat split; simpl; try assumption; lia. }
    destruct (rd_ret r <? 0).
    { destruct (rd_errno r =? EINTR); [apply IH; assumption|].
      split; [exact Hst1 | reflexivity]. }
    destruct (rd_ret r =? 0); [|apply IH; assumption].
    split; [exact Hst1 | reflexivity].
Qed.

Lemma delivered_arrays_app (a b : list sink_call) :
  delivered_arrays (a ++ b) = delivered_arrays a ++ delivered_arrays b.
Proof. unfold delivered_arrays. apply flat_map_app. Qed.

Lemma iteration_deliveries (p : platform) (fds : thread_fds)
  (st : locals) (w : wait_result) (reads : list read_result) :
  arrays_sized st ->
  Forall read_within_chunk reads ->
  arrays_sized (final_locals (snd (iteration p fds st w reads)))
  /\ Forall array_in_range
       (delivered_arrays (fst (iteration p fds st w reads))).
Proof.
  intros Hst Hreads. unfold iteration.
  destruct (w_ret w <=? 0); [split; [exact Hst | constructor]|].
  destruct (exit_requested fds w); [split; [exact Hst | constructor]|].
  destruct (readable p fds w).
  - destruct (read_loop_deliveries reads st Hst Hreads) as [Hsz Hd].
    destruct (read_loop st reads) as [st' calls [d|] | st'];
      cbn [fst snd final_locals loop_locals] in *.
    + destruct Hd as [Hrange Hnone]. split; [exact Hsz|].
      rewrite delivered_arrays_app, Hnone. simpl.
      constructor; [exact Hrange | constructor].
    + split; [exact Hsz|]. rewrite Hd. constructor.
    + split; [exact Hsz | constructor].
  - destruct (error_flagged p w); [|split; [exact Hst | constructor]].
    destruct (errorCount st + 1 =? 100);
      (split; [exact Hst | repeat constructor]).
Qed.

End Deliveries.

(** X5: no array handed to [insertInDataQueue] is empty or longer than
    2048 bytes, and filling it never reads past the end of [buffer] or
    [final_buf]: with the arrays of their declared sizes and [read]
    returning at most the 1024 bytes asked for, every delivery holds
    between 1 and 2048 bytes, whatever the sequence of wake-ups and
    reads. *)
Theorem deliveries_within_arrays `{SysConsts} (p : platform)
  (fds : thread_fds) (buffer0 final_buf0 : list jbyte)
  (inputs : list (wait_result * list read_result)) :
  length buffer0 = 1024%nat ->
  length final_buf0 = 3072%nat ->
  Forall (fun inp => Forall read_within_chunk (snd inp)) inputs ->
  Forall (fun calls => Forall array_in_range (delivered_arrays calls))
    (fst (data_looper_loop p fds (initial_locals buffer0 final_buf0) inputs)).
Proof.
  intros Hb Hf Hin.
  assert (Hgen : forall st,
    arrays_sized st ->
    Forall (fun calls => Forall array_in_range (delivered_arrays calls))
      (fst (data_looper_loop p fds st inputs))).
  { induction inputs as [|[w reads] rest IH]; intros st Hst; simpl;
      [constructor|].
    inversion Hin as [|? ? Hreads Hrest]; subst. simpl in Hreads.
    destruct (iteration_deliveries p fds st w reads Hst Hreads)
      as [Hsz Hd].
    destruct (iteration p fds st w reads) as [calls [st'|st'|st']];
      cbn [fst snd final_locals] in *.
    - specialize (IH Hrest st' Hsz).
      destruct (data_looper_loop p fds st' rest) as [trace s].
      constructor; assumption.
    - constructor; [exact Hd | constructor].
    - constructor; [exact Hd | constructor]. }
  apply Hgen. unfold arrays_sized; simpl.
  rewrite Hb, Hf. unfold BUFFER_SIZE, FINAL_BUF_SIZE. repeat split; lia.
Qed.

Lemma deliveries_within_arrays_witness :
  let fds := {| fd := 7; wake_fd := 9 |} in
  let w := {| w_ret := 1; w_ident0 := 7; w_flags0 := 1; w_data0 := 0;
              w_ident1 := 0; w_thread_exit := 0 |} in
  let inputs :=
    [(w, [ {| rd_ret := 4; rd_errno := 4; rd_bytes := [1; 2; 3; 4] |};
           {| rd_ret := 6; rd_errno := 0;
              rd_bytes := [5; 6; 7; 8; 9; 10] |} ])] in
  length (replicate 1024 (0 : jbyte)) = 1024%nat
  /\ length (replicate 3072 (0 : jbyte)) = 3072%nat
  /\ Forall (fun inp => Forall read_within_chunk (snd inp)) inputs
  /\ Forall (fun calls => Forall array_in_range (delivered_arrays calls))
       (fst (data_looper_loop (H := linux_consts) Linux fds
               (initial_locals (replicate 1024 0) (replicate 3072 0))
               inputs)).
Proof.
  intros fds w inputs.
  assert (Hin : Forall (fun inp => Forall read_within_chunk (snd inp))
                  inputs).
  { repeat constructor; simpl; unfold BUFFER_SIZE; lia. }
  split; [reflexivity|]. split; [reflexivity|]. split; [exact Hin|].
  exact (deliveries_within_arrays (H := linux_consts) Linux fds
           (replicate 1024 0) (replicate 3072 0) inputs
           eq_refl eq_refl Hin).
Defined.

End DataLooperFacts.

(* ===================================================================== *)
(** ** Further behaviour of the event listener loop *)
(* ===================================================================== *)

Module EventLooperFacts.
Import EventLooper.

(** Both [ioctl]s of the pass succeeded (on macOS there is only
    [TIOCMGET]). *)
Definition cycle_succeeded (p : platform) (c : cycle_input) : bool :=
  match p with
  | Linux => negb (iwait_ret c <? 0) && negb (get_ret c <? 0)
  | Apple => negb (get_ret c <? 0)
  end.

(** No element of [ds] equals the one before it, [prev] being the one
    before the first. *)
Fixpoint changes_only (prev : Z) (ds : list Z) : Prop :=
  match ds with
  | [] => True
  | d :: rest => d <> prev /\ changes_only d rest
  end.

Section Facts.
Context `{ModemConsts}.

Lemma cycle_failed (p : platform) (oldstate : Z) (c : cycle_input) :
  cycle_succeeded p c = false -> cycle p oldstate c = ([], oldstate).
Proof.
  unfold cycle_succeeded, cycle. destruct p.
  - destruct (iwait_ret c <? 0); [reflexivity|].
    destruct (get_ret c <? 0); [reflexivity | discriminate].
  - destruct (get_ret c <? 0); [reflexivity | discriminate].
Qed.

End Facts.

(** X6: a pass in which an [ioctl] fails delivers nothing and leaves no
    trace: the events delivered over any sequence of passes are those
    delivered over its successful passes alone, on both platforms (on
    macOS the mask remembered for edge detection is not disturbed). *)
Theorem failed_cycles_leave_no_trace `{ModemConsts} (p : platform)
  (cs : list cycle_input) (oldstate : Z) :
  concat (event_looper_loop p oldstate cs)
  = concat (event_looper_loop p oldstate (filter (cycle_succeeded p) cs)).
Proof.
  revert oldstate.
  induction cs as [|c rest IH]; intros oldstate; [reflexivity|].
  rewrite filter_cons.
  destruct (decide (cycle_succeeded p c)) as [Hok|Hfail].
  - cbn [event_looper_loop].
    destruct (cycle p oldstate c) as [calls old']. cbn [concat].
    rewrite IH. reflexivity.
  - apply Is_true_false_1 in Hfail.
    cbn [event_looper_loop]. rewrite (cycle_failed p oldstate c Hfail).
    cbn [concat app]. apply IH.
Qed.

(** X7: on macOS the listener never receives the same mask twice in a
    row, and never receives the initial mask first: over any sequence of
    passes, failing ones included, each delivered event differs from the
    one delivered before it. *)
Theorem apple_never_repeats_an_event `{ModemConsts}
  (cs : list cycle_input) (oldstate : Z) :
  changes_only oldstate (concat (event_looper_loop Apple oldstate cs)).
Proof.
  revert oldstate.
  induction cs as [|c rest IH]; intros oldstate; [exact I|].
  cbn [event_looper_loop cycle].
  destruct (get_ret c <? 0); [exact (IH oldstate)|].
  destruct (Z.eqb_spec (decode_event (lines_status c)) oldstate) as [E|E];
    cbn [negb concat app].
  - exact (IH oldstate).
  - split; [exact E | apply IH].
Qed.

End EventLooperFacts.

(* ===================================================================== *)
(** ** Further behaviour of the port presence monitor *)
(* ===================================================================== *)

Module PortMonitorFacts.
Import PortMonitor.






(** The wake-up carries a device and the monitor is ready to read it. *)
Definition device_received (e : udev_wakeup) (action : string) : Prop :=
  0 < sel_ret e /\ fd_isset e = true /\ device_action e = Some action.

Section Facts.
Context `{MonitorConsts}.

Lemma register_services_spec (data : ptr) (iterator : list (Z * Z)) :
  forall (info : list (option driver_ref)) (idx : Z),
    0 <= idx ->
    (Z.to_nat idx + length iterator <= length info)%nat ->
    let r := register_services data iterator info idx in
    snd r = idx + Z.of_nat (length iterator)
    /\ length (fst r) = length info
    /\ (forall (j : nat) (service notif : Z),
           iterator !! j = Some (service, notif) ->
           fst r !! (Z.to_nat idx + j)%nat
           = Some (Some {| dr_service := service; dr_notification := notif;
                           dr_data := data |}))
    /\ (forall i : nat, (i < Z.to_nat idx)%nat -> fst r !! i = info !! i).
Proof.
  induction iterator as [|[service notif] rest IH];
    intros info idx Hidx Hfit r; subst r.
  - simpl. split; [lia|]. split; [reflexivity|].
    split; [intros j ? ? Hj; destruct j; discriminate | reflexivity].
  - cbn [register_services]. simpl in Hfit.
    set (dref := {| dr_service := service; dr_notification := notif;
                    dr_data := data |}).
    destruct (IH (<[Z.to_nat idx := Some dref]> info) (idx + 1)
                ltac:(lia) ltac:(rewrite length_insert; lia))
      as (Hidx' & Hlen & Hnew & Hold).
    split; [rewrite Hidx'; simpl length; lia|].
    split; [rewrite Hlen; apply length_insert|].
    split.
    + intros j s n Hj. destruct j as [|j].
      * injection Hj as <- <-.
        rewrite Hold by lia. rewrite Nat.add_0_r.
        apply list_lookup_insert_eq. lia.
      * simpl in Hj.
        replace (Z.to_nat idx + S j)%nat
          with (Z.to_nat (idx + 1) + j)%nat by lia.
        exact (Hnew j s n Hj).
    + intros i Hi. rewrite Hold by lia.
      apply list_lookup_insert_ne. lia.
Qed.


End Facts.

(** X8: what one wake-up of the Linux monitor tells the listener.  At
    most one call is made; it is "added" (code 1) exactly when a device
    was received with action "add", whatever [stat] would return, and
    "removed" (code 2) exactly when a device was received with action
    "remove" and the probe reports the removal.  A failed or spurious
    [select], a NULL device and any other action give no call. *)
Theorem linux_wakeup_calls `{MonitorConsts} (port_listener mid : Z)
  (e : udev_wakeup) (c : port_call) :
  let added :=
    {| pc_listener := port_listener; pc_mid := mid; pc_code := 1 |} in
  let removed :=
    {| pc_listener := port_listener; pc_mid := mid; pc_code := 2 |} in
  (length (port_monitor_pass port_listener mid e) <= 1)%nat
  /\ (In c (port_monitor_pass port_listener mid e)
      <-> (device_received e "add" /\ c = added)
          \/ (device_received e "remove"
              /\ probe_reports_removal (stat_ret e) (stat_errno e) = true
              /\ c = removed)).
Proof.
  intros added removed. unfold port_monitor_pass, device_received.
  destruct (Z.ltb_spec 0 (sel_ret e)) as [Hsel|Hsel]; cbn [andb].
  2:{ split; [simpl; lia|]. split; [intros []|].
      intros [[(Hc & _) _]|[(Hc & _) _]]; lia. }
  destruct (fd_isset e) eqn:Hset.
  2:{ split; [simpl; lia|]. split; [intros []|].
      intros [[(_ & Hc & _) _]|[(_ & Hc & _) _]]; discriminate. }
  destruct (device_action e) as [action|] eqn:Hact.
  2:{ split; [simpl; lia|]. split; [intros []|].
      intros [[(_ & _ & Hc) _]|[(_ & _ & Hc) _]]; discriminate. }
  destruct (String.eqb_spec action "add") as [->|Hadd].
  { split; [simpl; lia|]. split.
    - intros [<-|[]]. left. auto.
    - intros [[_ ->]|[(_ & _ & Hc) _]]; [left; reflexivity|].
      discriminate. }
  destruct (String.eqb_spec action "remove") as [->|Hrem].
  { destruct (probe_reports_removal (stat_ret e) (stat_errno e)).
    - split; [simpl; lia|]. split.
      + intros [<-|[]]. right. auto.
      + intros [[(_ & _ & Hc) _]|(_ & _ & ->)];
          [discriminate | left; reflexivity].
    - split; [simpl; lia|]. split; [intros []|].
      intros [[(_ & _ & Hc) _]|(_ & Hc & _)]; discriminate. }
  split; [simpl; lia|]. split; [intros []|].
  intros [[(_ & _ & Hc) _]|[(_ & _ & Hc) _]];
    injection Hc as Hc; congruence.
Qed.

(** X9: [device_added] records every service of its iterator.  When the
    services fit in the free part of [pm_info], the call advances
    [pm_index] by their number, stores for the j-th service a driver
    reference (with its notification object and the monitor's [data]
    pointer) at slot [pm_index + j], and leaves the slots below
    [pm_index] and the size of the table unchanged. *)
Theorem device_added_records_services (st : monitor_state) (refCon : ptr)
  (pinfo : port_info) (iterator : list (Z * Z)) :
  heap st !! refCon = Some pinfo ->
  0 <= pm_index st ->
  (Z.to_nat (pm_index st) + length iterator <= length (pm_info st))%nat ->
  exists st' calls,
    device_added st refCon iterator = Some (st', calls)
    /\ pm_index st' = pm_index st + Z.of_nat (length iterator)
    /\ length (pm_info st') = length (pm_info st)
    /\ (forall (j : nat) (service notif : Z),
           iterator !! j = Some (service, notif) ->
           pm_info st' !! (Z.to_nat (pm_index st) + j)%nat
           = Some (Some {| dr_service := service; dr_notification := notif;
                           dr_data := pi_data pinfo |}))
    /\ (forall i : nat,
           (i < Z.to_nat (pm_index st))%nat ->
           pm_info st' !! i = pm_info st !! i).
Proof.
  intros Hh Hidx Hfit. unfold device_added. rewrite Hh.
  pose proof (register_services_spec (pi_data pinfo) iterator
                (pm_info st) (pm_index st) Hidx Hfit) as Hreg.
  cbv zeta in Hreg.
  destruct (register_services (pi_data pinfo) iterator (pm_info st)
              (pm_index st)) as [info idx].
  cbn [fst snd] in Hreg.
  destruct (negb (pi_tempVal pinfo =? 0)); eexists; eexists;
    (split; [reflexivity | exact Hreg]).
Qed.

Lemma device_added_records_services_witness :
  let pinfo := {| pi_env := 1; pi_port_listener := 5; pi_mid := 6;
                  pi_data := 0%nat; pi_notification_port := 2;
                  pi_tempVal := 1 |} in
  let st := {| heap := {[ 0%nat := pinfo ]};
               pm_info := replicate 2048 None; pm_index := 3 |} in
  heap st !! 0%nat = Some pinfo
  /\ 0 <= pm_index st
  /\ (Z.to_nat (pm_index st) + length [(101, 201); (102, 202)]
      <= length (pm_info st))%nat
  /\ exists st' calls,
       device_added st 0%nat [(101, 201); (102, 202)] = Some (st', calls)
       /\ pm_index st' = 5
       /\ pm_info st' !! 4%nat
          = Some (Some {| dr_service := 102; dr_notification := 202;
                          dr_data := 0%nat |}).
Proof.
  intros pinfo st.
  assert (Hh : heap st !! 0%nat = Some pinfo) by reflexivity.
  assert (Hidx : 0 <= pm_index st) by (simpl; lia).
  assert (Hfit : (Z.to_nat (pm_index st) + length [(101, 201); (102, 202)]
                  <= length (pm_info st))%nat)
    by (vm_compute; repeat constructor).
  split; [exact Hh|]. split; [exact Hidx|]. split; [exact Hfit|].
  destruct (device_added_records_services st 0%nat pinfo
              [(101, 201); (102, 202)] Hh Hidx Hfit)
    as (st' & calls & Hrun & Hi & _ & Hnew & _).
  exists st', calls. split; [exact Hrun|]. split; [exact Hi|].
  exact (Hnew 1%nat 102 202 eq_refl).
Defined.



End PortMonitorFacts.

(* ===================================================================== *)
(** ** Resources of the set-up part of [data_looper] *)
(* ===================================================================== *)

Module DataLooperInitFacts.
Import DataLooperInit.

(** The descriptors closed by a sequence of actions, in order. *)
Fixpoint closed (t : list action) : list Z :=
  match t with
  | [] => []
  | Close fd :: rest => fd :: closed rest
  | _ :: rest => closed rest
  end.

(** Number of [DetachCurrentThread] calls. *)
Fixpoint detaches (t : list action) : nat :=
  match t with
  | [] => O
  | Detach :: rest => S (detaches rest)
  | _ :: rest => detaches rest
  end.

(** The thread ends inside the set-up. *)
Definition exits (t : list action) : bool :=
  existsb (fun a => match a with ThreadExit => true | _ => false end) t.

(** The Java side of the set-up succeeded. *)
Definition java_ready (e : init_env) : bool :=
  attach_ok e && class_found e && mid_found e && mide_found e.

(** The descriptors the system calls of the set-up have created when it
    ends, in order of creation: on Linux the event descriptor and the
    epoll descriptor, on macOS the two ends of the pipe and the kernel
    queue; a call that fails creates none and stops the set-up. *)
Definition opened (p : platform) (e : init_env) : list Z :=
  if java_ready e then
    match p with
    | Linux =>
        if sc_ret (sys_eventfd e) <? 0 then []
        else if sc_ret (sys_epoll_create e) <? 0
             then [sc_ret (sys_eventfd e)]
             else [sc_ret (sys_eventfd e); sc_ret (sys_epoll_create e)]
    | Apple =>
        if sc_ret (sys_pipe e) <? 0 then []
        else if sc_ret (sys_kqueue e) <? 0
             then [pipe_read_end e; pipe_write_end e]
             else [pipe_read_end e; pipe_write_end e; sc_ret (sys_kqueue e)]
    end
  else [].

(** X11: a set-up that fails leaks no descriptor and no attachment.
    When [data_looper] does not reach its loop, the thread ends inside
    the set-up, every descriptor its system calls had created by then
    has been closed (and nothing else), and it has detached from the
    Java VM exactly when it had attached.  When the loop is reached,
    nothing has been closed or detached and the thread has not ended. *)
Theorem failed_setup_releases_everything (p : platform) (fd : Z)
  (e : init_env) :
  let r := data_looper_init p fd e in
  (snd r = None ->
   exits (fst r) = true
   /\ Permutation (closed (fst r)) (opened p e)
   /\ detaches (fst r) = (if attach_ok e then 1%nat else 0%nat))
  /\ (is_Some (snd r) ->
      exits (fst r) = false /\ closed (fst r) = []
      /\ detaches (fst r) = 0%nat).
Proof.
  intros r. subst r.
  unfold data_looper_init, opened, java_ready.
  destruct (attach_ok e); cbn [negb andb].
  2:{ split; [intros _; repeat split; reflexivity|].
      intros [x Hx]; discriminate. }
  destruct (class_found e); cbn [negb andb];
    [|split; [intros _; repeat split; reflexivity
             |intros [x Hx]; discriminate]].
  destruct (mid_found e); cbn [negb andb];
    [|split; [intros _; repeat split; reflexivity
             |intros [x Hx]; discriminate]].
  destruct (mide_found e); cbn [negb andb];
    [|split; [intros _; repeat split; reflexivity
             |intros [x Hx]; discriminate]].
  destruct p.
  - destruct (sc_ret (sys_eventfd e) <? 0);
      [split; [intros _; repeat split; reflexivity
              |intros [x Hx]; discriminate]|].
    destruct (sc_ret (sys_epoll_create e) <? 0);
      [split; [intros _; repeat split; reflexivity
              |intros [x Hx]; discriminate]|].
    destruct (sc_ret (sys_epoll_ctl_port e) <? 0);
      [split; [intros _; repeat split; try reflexivity; apply perm_swap
              |intros [x Hx]; discriminate]|].
    destruct (sc_ret (sys_epoll_ctl_exit e) <? 0);
      [split; [intros _; repeat split; try reflexivity; apply perm_swap
              |intros [x Hx]; discriminate]|].
    split; [discriminate | intros _; repeat split; reflexivity].
  - destruct (sc_ret (sys_pipe e) <? 0);
      [split; [intros _; repeat split; reflexivity
              |intros [x Hx]; discriminate]|].
    destruct (sc_ret (sys_kqueue e) <? 0);
      [split; [intros _; repeat split; reflexivity
              |intros [x Hx]; discriminate]|].
    split; [discriminate | intros _; repeat split; reflexivity].
Qed.

End DataLooperInitFacts.

(* ===================================================================== *)
(** ** Further behaviour of the Windows listener registry *)
(* ===================================================================== *)

Module WinListenersFacts.
Import WinListeners.

(** The slot [dtp_index] designates exists. *)
Definition slot_free (reg : registry) : Prop :=
  0 <= dtp_index reg
  /\ (Z.to_nat (dtp_index reg) < length (handle_looper_info reg))%nat.

Section Facts.
Context `{CommConsts}.

Lemma thread_exist_true (handle : Z) (info : list looper_thread_params)
  (k : nat) (e : looper_thread_params) :
  info !! k = Some e -> hComm e = handle -> thread_exist handle info = true.
Proof.
  intros Hk He. unfold thread_exist. apply existsb_exists.
  exists e. split; [|apply Z.eqb_eq; exact He].
  apply list_elem_of_In. eapply list_elem_of_lookup_2. exact Hk.
Qed.

Lemma request_exit_absent (handle : Z) (info : list looper_thread_params) :
  thread_exist handle info = false -> request_exit handle info = info.
Proof.
  unfold thread_exist.
  induction info as [|e rest IH]; intros Hno; [reflexivity|].
  simpl in Hno |- *. apply orb_false_elim in Hno as [He Hrest].
  rewrite He, (IH Hrest). reflexivity.
Qed.

Lemma request_exit_thread_exist (handle h : Z)
  (info : list looper_thread_params) :
  thread_exist h (request_exit handle info) = thread_exist h info.
Proof.
  unfold thread_exist.
  induction info as [|e rest IH]; [reflexivity|].
  simpl. destruct (hComm e =? handle); simpl; [reflexivity|].
  rewrite IH. reflexivity.
Qed.

Lemma request_exit_others (handle : Z) (info : list looper_thread_params) :
  forall k : nat,
    first_slot handle info = Some k ->
    length (request_exit handle info) = length info
    /\ forall j : nat, j <> k -> request_exit handle info !! j = info !! j.
Proof.
  induction info as [|e rest IH]; intros k Hk; [discriminate|].
  simpl in Hk |- *.
  destruct (hComm e =? handle).
  - injection Hk as <-. split; [reflexivity|].
    intros j Hj. destruct j; [contradiction | reflexivity].
  - destruct (first_slot handle rest) as [i|]; [|discriminate].
    injection Hk as <-. destruct (IH i eq_refl) as [Hlen Hoth].
    split; [simpl; rewrite Hlen; reflexivity|].
    intros j Hj. destruct j as [|j]; [reflexivity|].
    simpl. apply Hoth. lia.
Qed.



End Facts.

(** X12: a registration that cannot create its global reference or its
    thread returns -240 with the critical section still entered: no
    thread is started, [dtp_index] does not advance and the wait masks
    are untouched, but [csmutex] is never left.  When it is the thread
    that could not be created, the entry has already been written, so
    the handle is from then on taken to have a listener thread. *)
Theorem failed_registration_keeps_critical_section `{CommConsts}
  (reg : registry) (handle looper data_en event_en : Z) (os : os_results) :
  slot_free reg ->
  global_ref os = None \/ new_thread os = None ->
  let r := setupLooperThread reg handle looper data_en event_en os in
  snd r = Returned (-240)
  /\ csmutex_held (fst r) = true
  /\ started (fst r) = started reg
  /\ dtp_index (fst r) = dtp_index reg
  /\ comm_mask (fst r) = comm_mask reg
  /\ (is_Some (global_ref os) ->
      thread_exist handle (handle_looper_info (fst r)) = true).
Proof.
  intros [Hidx Hslot] Hfail r. subst r. unfold setupLooperThread.
  destruct (global_ref os) as [ref|] eqn:Href.
  - destruct Hfail as [Hf|Hf]; [discriminate|]. rewrite Hf.
    cbn. repeat split. intros _.
    eapply thread_exist_true;
      [apply list_lookup_insert_eq; exact Hslot | reflexivity].
  - cbn. repeat split. intros [x Hx]; discriminate.
Qed.

Lemma failed_registration_keeps_critical_section_witness :
  let os := {| set_mask_ok := true; global_ref := Some 11;
               stack_thread_handle := 0; new_thread := None;
               thread_init_report := 0 |} in
  let r := setupLooperThread initial_registry 7 1 1 0
             os in
  slot_free initial_registry
  /\ snd r = Returned (-240)
  /\ csmutex_held (fst r) = true
  /\ thread_exist 7 (handle_looper_info (fst r)) = true.
Proof.
  intros os r.
  assert (Hfree : slot_free initial_registry).
  { split; [simpl; lia | vm_compute; repeat constructor]. }
  split; [exact Hfree|].
  destruct (failed_registration_keeps_critical_section
              (H := winbase_consts) initial_registry 7 1 1 0 os Hfree
              (or_intror eq_refl)) as (Hr & Hc & _ & _ & _ & Hex).
  split; [exact Hr|]. split; [exact Hc|].
  exact (Hex (mk_is_Some _ _ eq_refl)).
Defined.

(** X13: unregistering does not give the entry back.  After a successful
    registration followed by [destroyDataLooperThread] or
    [destroyEventLooperThread], [dtp_index] is still advanced and the
    handle is still found in [handle_looper_info]; so registering the
    same handle again starts no thread (it only touches the wait mask)
    and does not return 0. *)
Theorem unregister_keeps_entry `{CommConsts} (reg : registry)
  (handle looper data_en event_en ref th : Z) (os os2 os3 : os_results)
  (destroy_data : bool) :
  slot_free reg ->
  global_ref os = Some ref ->
  new_thread os = Some th ->
  let reg1 :=
    fst (setupLooperThread reg handle looper data_en event_en os) in
  let reg2 :=
    fst (if destroy_data then destroyDataLooperThread reg1 handle os2
         else destroyEventLooperThread reg1 handle os2) in
  dtp_index reg2 = dtp_index reg + 1
  /\ thread_exist handle (handle_looper_info reg2) = true
  /\ started (fst (setUpDataLooperThread reg2 handle looper os3))
     = started reg2
  /\ snd (setUpDataLooperThread reg2 handle looper os3) <> Returned 0
  /\ started (fst (setUpEventLooperThread reg2 handle looper os3))
     = started reg2
  /\ snd (setUpEventLooperThread reg2 handle looper os3) <> Returned 0.
Proof.
  intros [Hidx Hslot] Href Hth reg1 reg2.
  assert (Hreg2 : reg2 = fst (exit_and_wake reg1 handle os2))
    by (subst reg2; destruct destroy_data; reflexivity).
  assert (Hex1 : thread_exist handle (handle_looper_info reg1) = true).
  { subst reg1. unfold setupLooperThread. rewrite Href, Hth. cbn.
    eapply thread_exist_true;
      [apply list_lookup_insert_eq; rewrite length_insert; exact Hslot
      |reflexivity]. }
  assert (Hex2 : thread_exist handle (handle_looper_info reg2) = true).
  { rewrite Hreg2. unfold exit_and_wake. cbn [fst].
    destruct (set_mask_ok os2);
      cbn [set_comm_mask set_info handle_looper_info];
      rewrite request_exit_thread_exist; exact Hex1. }
  assert (Hidx2 : dtp_index reg2 = dtp_index reg + 1).
  { rewrite Hreg2. unfold exit_and_wake. cbn [fst].
    destruct (set_mask_ok os2); cbn; subst reg1;
      unfold setupLooperThread; rewrite Href, Hth; reflexivity. }
  split; [exact Hidx2|]. split; [exact Hex2|].
  unfold setUpDataLooperThread, setUpEventLooperThread. rewrite Hex2.
  destruct (set_mask_ok os3); cbn; repeat split; discriminate.
Qed.

Lemma unregister_keeps_entry_witness :
  let os := {| set_mask_ok := true; global_ref := Some 11;
               stack_thread_handle := 0; new_thread := Some 12;
               thread_init_report := 1 |} in
  let reg1 := fst (setupLooperThread initial_registry 7 1 1 0 os) in
  let reg2 := fst (destroyDataLooperThread (H := winbase_consts)
                     reg1 7 os) in
  slot_free initial_registry
  /\ started (fst (setUpDataLooperThread (H := winbase_consts) reg2 7 1 os))
     = started reg2.
Proof.
  intros os reg1 reg2.
  assert (Hfree : slot_free initial_registry).
  { split; [simpl; lia | vm_compute; repeat constructor]. }
  split; [exact Hfree|].
  exact (proj1 (proj2 (proj2
    (unregister_keeps_entry (H := winbase_consts) initial_registry
       7 1 1 0 11 12 os os os true Hfree eq_refl eq_refl)))).
Defined.



(** X15: unregistering a handle that has no entry is reported as a
    success.  Both destroy functions return 0, leave every entry of
    [handle_looper_info] as it is, and still replace the wait mask of
    that handle by [EV_BREAK] when [SetCommMask] accepts it. *)
Theorem unregister_unknown_handle `{CommConsts} (reg : registry)
  (handle : Z) (os : os_results) (destroy_data : bool) :
  thread_exist handle (handle_looper_info reg) = false ->
  let r := if destroy_data then destroyDataLooperThread reg handle os
           else destroyEventLooperThread reg handle os in
  snd r = Returned 0
  /\ handle_looper_info (fst r) = handle_looper_info reg
  /\ started (fst r) = started reg
  /\ comm_mask (fst r)
     = if set_mask_ok os then <[handle := EV_BREAK]> (comm_mask reg)
       else comm_mask reg.
Proof.
  intros Hno r.
  assert (Hr : r = exit_and_wake reg handle os)
    by (subst r; destruct destroy_data; reflexivity).
  rewrite Hr. unfold exit_and_wake.
  rewrite (request_exit_absent handle _ Hno).
  destruct (set_mask_ok os); cbn; repeat split.
Qed.

Lemma unregister_unknown_handle_witness :
  let os := {| set_mask_ok := true; global_ref := None;
               stack_thread_handle := 0; new_thread := None;
               thread_init_report := 0 |} in
  thread_exist 7 (handle_looper_info initial_registry) = false
  /\ snd (destroyDataLooperThread (H := winbase_consts) initial_registry 7 os)
     = Returned 0.
Proof.
  intros os.
  assert (Hno : thread_exist 7 (handle_looper_info initial_registry) = false)
    by (vm_compute; reflexivity).
  split; [exact Hno|].
  exact (proj1 (unregister_unknown_handle (H := winbase_consts)
                  initial_registry 7 os true Hno)).
Defined.

(** X16: unregistering one handle never reaches the thread of another.
    The exit flag is set in the first entry of the handle only: the
    table keeps its size, every other entry is unchanged, and the wait
    masks of the other handles are unchanged. *)
Theorem unregister_touches_one_entry `{CommConsts} (reg : registry)
  (handle : Z) (os : os_results) (k : nat) (destroy_data : bool) :
  first_slot handle (handle_looper_info reg) = Some k ->
  let r := if destroy_data then destroyDataLooperThread reg handle os
           else destroyEventLooperThread reg handle os in
  length (handle_looper_info (fst r)) = length (handle_looper_info reg)
  /\ (forall j : nat,
         j <> k ->
         handle_looper_info (fst r) !! j = handle_looper_info reg !! j)
  /\ (forall other : Z,
         other <> handle ->
         comm_mask (fst r) !! other = comm_mask reg !! other).
Proof.
  intros Hk r.
  assert (Hr : r = exit_and_wake reg handle os)
    by (subst r; destruct destroy_data; reflexivity).
  rewrite Hr. unfold exit_and_wake.
  destruct (request_exit_others handle _ k Hk) as [Hlen Hoth].
  destruct (set_mask_ok os); cbn; (split; [exact Hlen|]);
    (split; [exact Hoth|]); intros other Hne;
    [apply lookup_insert_ne; congruence | reflexivity].
Qed.

Lemma unregister_touches_one_entry_witness :
  let os := {| set_mask_ok := true; global_ref := Some 11;
               stack_thread_handle := 0; new_thread := Some 12;
               thread_init_report := 1 |} in
  let reg1 := fst (setupLooperThread initial_registry 7 1 1 0 os) in
  let reg2 := fst (setupLooperThread reg1 8 1 1 0 os) in
  first_slot 8 (handle_looper_info reg2) = Some 1%nat
  /\ handle_looper_info
       (fst (destroyDataLooperThread (H := winbase_consts) reg2 8 os))
       !! 0%nat
     = handle_looper_info reg2 !! 0%nat.
Proof.
  intros os reg1 reg2.
  assert (Hk : first_slot 8 (handle_looper_info reg2) = Some 1%nat)
    by (vm_compute; reflexivity).
  split; [exact Hk|].
  destruct (unregister_touches_one_entry (H := winbase_consts) reg2 8 os
              1%nat true Hk) as (_ & Hoth & _).
  apply Hoth. lia.
Defined.

End WinListenersFacts.

(* ===================================================================== *)
(** ** Port configuration and transfer functions of [windows_serial.c] *)
(* ===================================================================== *)

Module WinPort.

(** Constants of [winbase.h], [winerror.h] and [errno.h] used below. *)
Class PortConsts := {
  EINVAL : Z;
  ENOMEM : Z;
  ECANCELED : Z;
  ETOOMANYOP : Z;      (* declared by the library's own header *)
  CBR_110 : Z; CBR_300 : Z; CBR_600 : Z; CBR_1200 : Z; CBR_2400 : Z;
  CBR_4800 : Z; CBR_9600 : Z; CBR_14400 : Z; CBR_19200 : Z;
  CBR_38400 : Z; CBR_57600 : Z; CBR_115200 : Z; CBR_128000 : Z;
  CBR_256000 : Z;
  ONESTOPBIT : Z; ONE5STOPBITS : Z; TWOSTOPBITS : Z;
  NOPARITY : Z; ODDPARITY : Z; EVENPARITY : Z; MARKPARITY : Z;
  SPACEPARITY : Z;
  PURGE_RXCLEAR : Z; PURGE_TXCLEAR : Z;
  ERROR_IO_PENDING : Z;
  ERROR_INVALID_USER_BUFFER : Z;
  ERROR_NOT_ENOUGH_MEMORY : Z;
  ERROR_NOT_ENOUGH_QUOTA : Z;
  ERROR_OPERATION_ABORTED : Z;
}.

(** The values of the Windows SDK (and of [errno.h] of its C runtime;
    [ETOOMANYOP] is given a value for the examples only). *)
Definition sdk_consts : PortConsts :=
  {| EINVAL := 22; ENOMEM := 12; ECANCELED := 105; ETOOMANYOP := 241;
     CBR_110 := 110; CBR_300 := 300; CBR_600 := 600; CBR_1200 := 1200;
     CBR_2400 := 2400; CBR_4800 := 4800; CBR_9600 := 9600;
     CBR_14400 := 14400; CBR_19200 := 19200; CBR_38400 := 38400;
     CBR_57600 := 57600; CBR_115200 := 115200; CBR_128000 := 128000;
     CBR_256000 := 256000;
     ONESTOPBIT := 0; ONE5STOPBITS := 1; TWOSTOPBITS := 2;
     NOPARITY := 0; ODDPARITY := 1; EVENPARITY := 2; MARKPARITY := 3;
     SPACEPARITY := 4;
     PURGE_RXCLEAR := 8; PURGE_TXCLEAR := 4;
     ERROR_IO_PENDING := 997; ERROR_INVALID_USER_BUFFER := 1784;
     ERROR_NOT_ENOUGH_MEMORY := 8; ERROR_NOT_ENOUGH_QUOTA := 1816;
     ERROR_OPERATION_ABORTED := 995 |}.

(** A [DWORD] holds 32 bits; [(DWORD)-1] is its largest value. *)
Definition DWORD_MODULUS : Z := 2 ^ 32.
Definition to_DWORD (v : Z) : Z := v mod DWORD_MODULUS.

(** The members of the device control block that
    [configureComPortData] assigns ([ByteSize] is a [BYTE]). *)
Record DCB := Dcb {
  BaudRate : Z;
  ByteSize : Z;
  StopBits : Z;
  fParity : bool;
  Parity : Z;
}.

(** What a configuration call did: the value returned, and the block
    handed to [SetCommState] when that call was reached. *)
Record config_result := ConfigResult {
  cfg_ret : Z;
  cfg_set : option DCB;
}.

(** The translated baud codes the [switch] refuses ("not supported by
    this OS platform"), and code 251 refused before it. *)
Definition refused_codes : list Z :=
  [251; 1; 2; 3; 5; 6; 7; 11; 19; 20; 21; 22; 23; 24; 25; 26; 27; 28; 29;
   30; 31].


(** What [writeBytes] does with the resources it takes, in order. *)
Inductive write_action :=
| GetElements          (* GetByteArrayElements *)
| CreateEventCall
| WriteFileCall
| WaitOverlapped       (* GetOverlappedResult(..., TRUE) *)
| ReleaseElements      (* ReleaseByteArrayElements *)
| CloseEvent.          (* CloseHandle(ovWrite.hEvent) *)

(** What [writeBytes] meets: whether [CreateEvent] gave a handle, the
    result of [WriteFile] and the error code after it, and the result of
    [GetOverlappedResult]. *)
Record write_env := WriteEnv {
  event_created : bool;
  write_file_ret : Z;
  write_error : Z;
  overlapped_ret : Z;
}.

Section Port.
Context `{PortConsts}.

(** The [switch(baudRateTranslated)]: the [CBR_] constant, [None] for a
    refused code, [(DWORD)-1] in the [default] case.  (The twelve refusing
    cases 20 to 31 are written as one range test.) *)
Definition baud_of_code (code : Z) : option Z :=
  if code =? 1 then None
  else if code =? 2 then None
  else if code =? 3 then None
  else if code =? 4 then Some CBR_110
  else if code =? 5 then None
  else if code =? 6 then None
  else if code =? 7 then None
  else if code =? 8 then Some CBR_300
  else if code =? 9 then Some CBR_600
  else if code =? 10 then Some CBR_1200
  else if code =? 11 then None
  else if code =? 12 then Some CBR_2400
  else if code =? 13 then Some CBR_4800
  else if code =? 14 then Some CBR_9600
  else if code =? 14400 then Some CBR_14400
  else if code =? 15 then Some CBR_19200
  else if code =? 16 then Some CBR_38400
  else if code =? 17 then Some CBR_57600
  else if code =? 18 then Some CBR_115200
  else if code =? 128000 then Some CBR_128000
  else if code =? 19 then None
  else if code =? 256000 then Some CBR_256000
  else if (20 <=? code) && (code <=? 31) then None
  else Some (to_DWORD (-1)).

(** [configureComPortData]: [current] is what [GetCommState] stored
    ([None] when it failed), [set_ok] tells whether [SetCommState]
    accepts the block. *)
Definition configureComPortData (current : option DCB) (set_ok : bool)
  (dataBits stopBits parity baudRateTranslated custBaudTranslated : Z)
  : config_result :=
  let negative := -1 in
  match current with
  | None => {| cfg_ret := -240; cfg_set := None |}
  | Some dcb =>
      if baudRateTranslated =? 251
      then {| cfg_ret := negative * EINVAL; cfg_set := None |}
      else
        match baud_of_code baudRateTranslated with
        | None => {| cfg_ret := negative * EINVAL; cfg_set := None |}
        | Some baud =>
            let stop :=
              if stopBits =? 1 then ONESTOPBIT
              else if stopBits =? 4 then ONE5STOPBITS
              else if stopBits =? 2 then TWOSTOPBITS
              else StopBits dcb in
            let '(fpar, par) :=
              if parity =? 1 then (false, NOPARITY)
              else if parity =? 2 then (true, ODDPARITY)
              else if parity =? 3 then (true, EVENPARITY)
              else if parity =? 4 then (true, MARKPARITY)
              else if parity =? 5 then (true, SPACEPARITY)
              else (true, Parity dcb) in
            let dcb' :=
              {| BaudRate := baud; ByteSize := dataBits mod 256;
                 StopBits := stop; fParity := fpar; Parity := par |} in
            {| cfg_ret := if set_ok then 0 else -240;
               cfg_set := Some dcb' |}
        end
  end.

(** The flags [clearPortIOBuffers] hands to [PurgeComm], as the [DWORD]
    the call receives ([PORTIOBUFFER] starts at -1). *)
Definition purge_flags (rxPortbuf txPortbuf : bool) : Z :=
  let PORTIOBUFFER := -1 in
  let PORTIOBUFFER :=
    if rxPortbuf && txPortbuf then Z.lor PURGE_RXCLEAR PURGE_TXCLEAR
    else if rxPortbuf then PURGE_RXCLEAR
    else if txPortbuf then PURGE_TXCLEAR
    else PORTIOBUFFER in
  to_DWORD PORTIOBUFFER.

(** [clearPortIOBuffers]; [purge_ok] tells whether [PurgeComm]
    succeeded. *)
Definition clearPortIOBuffers (purge_ok : bool)
  (rxPortbuf txPortbuf : bool) : Z * Z :=
  (purge_flags rxPortbuf txPortbuf, if purge_ok then 0 else -240).

(** [writeBytes]: the actions on the array elements and on the event
    handle, and the value returned. *)
Definition writeBytes (e : write_env) : list write_action * Z :=
  let negative := -1 in
  let done := ([GetElements; CreateEventCall; WriteFileCall;
                ReleaseElements; CloseEvent], 0) in
  if negb (event_created e) then ([GetElements; CreateEventCall], -240)
  else if write_file_ret e =? 0 then
    let errorVal := write_error e in
    if errorVal =? ERROR_IO_PENDING then
      if overlapped_ret e =? 0
      then ([GetElements; CreateEventCall; WriteFileCall; WaitOverlapped],
            -240)
      else ([GetElements; CreateEventCall; WriteFileCall; WaitOverlapped;
             ReleaseElements; CloseEvent], 0)
    else if (errorVal =? ERROR_INVALID_USER_BUFFER)
            || (errorVal =? ERROR_NOT_ENOUGH_MEMORY)
    then ([GetElements; CreateEventCall; WriteFileCall],
          negative * ETOOMANYOP)
    else if errorVal =? ERROR_NOT_ENOUGH_QUOTA
    then ([GetElements; CreateEventCall; WriteFileCall], negative * ENOMEM)
    else if errorVal =? ERROR_OPERATION_ABORTED
    then ([GetElements; CreateEventCall; WriteFileCall],
          negative * ECANCELED)
    else ([GetElements; CreateEventCall; WriteFileCall], -240)
  else done.

(** The bytes were handed to the driver: [WriteFile] succeeded at once,
    or reported pending I/O that then completed. *)
Definition write_completed (e : write_env) : Prop :=
  event_created e = true
  /\ (write_file_ret e <> 0
      \/ (write_error e = ERROR_IO_PENDING /\ overlapped_ret e <> 0)).

End Port.

Section PortFacts.
Context `{PortConsts}.

Lemma baud_of_code_refused (code : Z) :
  baud_of_code code = None <-> In code refused_codes /\ code <> 251.
Proof.
  unfold baud_of_code, refused_codes.
  repeat match goal with
         | |- context [?a =? ?b] => destruct (Z.eqb_spec a b)
         end;
    try (split; [intros _; simpl; lia | reflexivity]);
    try (split; [discriminate | simpl; lia]).
  destruct (Z.leb_spec 20 code), (Z.leb_spec code 31); cbn [andb];
    try (split; [intros _; simpl; lia | reflexivity]);
    try (split; [discriminate | simpl; lia]).
Qed.


End PortFacts.

(** X17: [configureComPortData] refuses a baud code, with [-EINVAL] and
    without calling [SetCommState], exactly for the codes 1, 2, 3, 5, 6,
    7, 11, 19 to 31 and 251; for every other code, once [GetCommState]
    has succeeded, [SetCommState] is called and the result is 0 or -240
    according to its outcome. *)
Theorem baud_codes_refused `{PortConsts} (dcb : DCB) (set_ok : bool)
  (dataBits stopBits parity code cust : Z) :
  let r := configureComPortData (Some dcb) set_ok dataBits stopBits parity
             code cust in
  (cfg_set r = None <-> In code refused_codes)
  /\ (In code refused_codes -> cfg_ret r = - EINVAL)
  /\ (~ In code refused_codes -> cfg_ret r = if set_ok then 0 else -240).
Proof.
  intros r. subst r. unfold configureComPortData.
  destruct (Z.eqb_spec code 251) as [->|Hne].
  { cbn. split; [split; [intros _; left; reflexivity | reflexivity]|].
    split; [intros _; lia|]. intros Hn. exfalso. apply Hn. left.
    reflexivity. }
  pose proof (baud_of_code_refused code) as Href.
  destruct (baud_of_code code) as [baud|].
  - assert (Hn : ~ In code refused_codes).
    { intros Hin. destruct Href as [_ Hr]. discriminate Hr. auto. }
    destruct (if parity =? 1 then _ else _) as [fpar par]. cbn.
    split; [split; [discriminate | contradiction]|].
    split; [contradiction | reflexivity].
  - assert (Hin : In code refused_codes) by (apply Href; reflexivity).
    cbn. split; [split; [auto | reflexivity]|].
    split; [intros _; lia | contradiction].
Qed.



(** X19: [clearPortIOBuffers] with neither buffer selected does not
    purge nothing: [PurgeComm] then receives [(DWORD)-1], which holds
    every purge flag, those of both buffers included.  With a buffer
    selected it receives exactly the flags of the selection. *)
Theorem clear_nothing_purges_everything `{PortConsts} (flag : Z) :
  0 <= PURGE_RXCLEAR < DWORD_MODULUS ->
  0 <= PURGE_TXCLEAR < DWORD_MODULUS ->
  0 <= flag < DWORD_MODULUS ->
  purge_flags false false = 4294967295
  /\ Z.land (purge_flags false false) flag = flag
  /\ Z.land (purge_flags false false) PURGE_RXCLEAR = PURGE_RXCLEAR
  /\ Z.land (purge_flags false false) PURGE_TXCLEAR = PURGE_TXCLEAR
  /\ purge_flags true false = PURGE_RXCLEAR
  /\ purge_flags false true = PURGE_TXCLEAR.
Proof.
  intros Hrx Htx Hflag.
  assert (Hall : forall c, 0 <= c < DWORD_MODULUS ->
                           Z.land 4294967295 c = c).
  { intros c Hc. rewrite Z.land_comm.
    change 4294967295 with (Z.ones 32).
    rewrite Z.land_ones by lia. apply Z.mod_small. exact Hc. }
  assert (Hnone : purge_flags false false = 4294967295) by reflexivity.
  rewrite Hnone.
  split; [reflexivity|]. split; [apply Hall; exact Hflag|].
  split; [apply Hall; exact Hrx|]. split; [apply Hall; exact Htx|].
  unfold purge_flags, to_DWORD; cbn [andb].
  split; apply Z.mod_small; assumption.
Qed.

Lemma clear_nothing_purges_everything_witness :
  0 <= @PURGE_RXCLEAR sdk_consts < DWORD_MODULUS
  /\ 0 <= @PURGE_TXCLEAR sdk_consts < DWORD_MODULUS
  /\ 0 <= 1 < DWORD_MODULUS
  /\ Z.land (purge_flags (H := sdk_consts) false false) 1 = 1.
Proof.
  assert (Hrx : 0 <= @PURGE_RXCLEAR sdk_consts < DWORD_MODULUS)
    by (vm_compute; split; congruence).
  assert (Htx : 0 <= @PURGE_TXCLEAR sdk_consts < DWORD_MODULUS)
    by (vm_compute; split; congruence).
  assert (Hf : 0 <= 1 < DWORD_MODULUS) by (vm_compute; split; congruence).
  split; [exact Hrx|]. split; [exact Htx|]. split; [exact Hf|].
  exact (proj1 (proj2 (clear_nothing_purges_everything (H := sdk_consts) 1
                         Hrx Htx Hf))).
Defined.

(** X20: [writeBytes] gives back what it took only when the write
    completes.  The array elements are always acquired; they are
    released, and the event handle closed, exactly when [WriteFile]
    succeeded at once or its pending I/O then completed, and the
    function then returns 0.  On every other path (no event handle,
    failed wait, any [WriteFile] error) neither happens. *)
Theorem write_releases_only_on_completion `{PortConsts} (e : write_env) :
  In GetElements (fst (writeBytes e))
  /\ (In ReleaseElements (fst (writeBytes e)) <-> write_completed e)
  /\ (In CloseEvent (fst (writeBytes e)) <-> write_completed e)
  /\ (write_completed e -> snd (writeBytes e) = 0).
Proof.
  unfold writeBytes, write_completed.
  destruct (event_created e); cbn [negb].
  2:{ cbn. split; [auto|].
      split; [split; [intros [E|[E|[]]]; discriminate
                     |intros [E _]; discriminate]|].
      split; [split; [intros [E|[E|[]]]; discriminate
                     |intros [E _]; discriminate]|].
      intros [E _]; discriminate. }
  destruct (Z.eqb_spec (write_file_ret e) 0) as [Hw|Hw].
  2:{ cbn. split; [auto|]. split; [split; [auto | intros _; auto 6]|].
      split; [split; [auto | intros _; auto 6]|]. reflexivity. }
  destruct (Z.eqb_spec (write_error e) ERROR_IO_PENDING) as [Hp|Hp].
  { destruct (Z.eqb_spec (overlapped_ret e) 0) as [Ho|Ho]; cbn.
    - split; [auto|].
      split; [split; [intros [E|[E|[E|[E|[]]]]]; discriminate
                     |intros [_ [Hc|[_ Hc]]]; contradiction]|].
      split; [split; [intros [E|[E|[E|[E|[]]]]]; discriminate
                     |intros [_ [Hc|[_ Hc]]]; contradiction]|].
      intros [_ [Hc|[_ Hc]]]; contradiction.
    - split; [auto|]. split; [split; [auto | intros _; auto 8]|].
      split; [split; [auto | intros _; auto 8]|]. reflexivity. }
  assert (Hnot : ~ (true = true
                    /\ (write_file_ret e <> 0
                        \/ write_error e = ERROR_IO_PENDING
                           /\ overlapped_ret e <> 0)))
    by (intros [_ [Hc|[Hc _]]]; contradiction).
  destruct ((write_error e =? ERROR_INVALID_USER_BUFFER)
            || (write_error e =? ERROR_NOT_ENOUGH_MEMORY));
    [|destruct (write_error e =? ERROR_NOT_ENOUGH_QUOTA);
      [|destruct (write_error e =? ERROR_OPERATION_ABORTED)]];
    cbn; (split; [auto|]);
    (split; [split; [intros [E|[E|[E|[]]]]; discriminate
                    |intros Hc; contradiction]|]);
    (split; [split; [intros [E|[E|[E|[]]]]; discriminate
                    |intros Hc; contradiction]|]);
    intros Hc; contradiction.
Qed.

End WinPort.
